(** * Inventory and order management: the order transaction and the order
      status machine

    A shallow embedding of [app/services/order_service.py] and
    [app/services/product_service.py], with the models, schemas and
    exceptions they use and the request handlers that call them, and the
    properties of the order-creation transaction, of the status machine and
    of the rest of the API proved over it.

    The service is written against an SQLAlchemy session: it loads and locks
    rows, changes loaded objects, adds new ones, flushes and commits.  The
    embedding is a state and exception monad over the session, with the
    database as the lists of its rows.  Python integers are unbounded: [Z].
    A [Numeric(10, 2)] column holds a decimal with two fractional digits:
    [Decimal] counts hundredths.  The timestamp of [created_at] is the
    database server's [now()], a number here.

    First the definitions: the data, the session, the services and handlers,
    requests in flight at the same time, and the vocabulary of the
    properties.  Then the properties. *)

From stdpp Require Import gmap strings list fin_maps sorting.

Local Open Scope Z_scope.

(** ** app/models and app/schemas *)

Definition Decimal : Type := Z.

(** [app/models/enums.py]: [class OrderStatus(str, enum.Enum)]. *)
Inductive OrderStatus : Type := PENDING | SHIPPED | CANCELLED.

#[global] Instance OrderStatus_eq_dec : EqDecision OrderStatus.
Proof. solve_decision. Defined.

(** [OrderStatus.X.value] *)
Definition value (s : OrderStatus) : string :=
  match s with
  | PENDING => "pending"
  | SHIPPED => "shipped"
  | CANCELLED => "cancelled"
  end.

(** [OrderStatus(v)]: the member whose value is [v]; [None] stands for the
    [ValueError] Python raises on any other string. *)
Definition OrderStatus_of_value (v : string) : option OrderStatus :=
  if decide (v = "pending") then Some PENDING
  else if decide (v = "shipped") then Some SHIPPED
  else if decide (v = "cancelled") then Some CANCELLED
  else None.

(** [app/models/product.py] *)
Module Product.
Record t : Type := mk {
  id : Z;
  name : string;
  price : Decimal;
  stock_quantity : Z
}.

Definition set_stock_quantity (p : t) (q : Z) : t :=
  mk (id p) (name p) (price p) q.
End Product.

(** [app/models/order.py].  An [OrderItem] has no [id] until the session
    flushes it ([None] in Python). *)
Module OrderItem.
Record t : Type := mk {
  id : option Z;
  order_id : Z;
  product_id : Z;
  quantity : Z;
  price_at_order : Decimal
}.

Definition set_id (i : t) (n : Z) : t :=
  mk (Some n) (order_id i) (product_id i) (quantity i) (price_at_order i).
End OrderItem.

Module Order.
(** A row of the table [orders]. *)
Record row : Type := mk_row {
  row_id : Z;
  row_created_at : Z;
  row_status : string
}.

(** The [Order] object with its [items] relationship loaded
    ([lazy="selectin"]). *)
Record t : Type := mk {
  id : Z;
  created_at : Z;
  status : string;
  items : list OrderItem.t
}.
End Order.

(** [app/schemas/order.py]: the request bodies. *)
Module OrderItemCreate.
Record t : Type := mk { product_id : Z; quantity : Z }.
End OrderItemCreate.

Module OrderCreate.
Record t : Type := mk { items : list OrderItemCreate.t }.
End OrderCreate.

(** [app/schemas/product.py] *)
Module ProductCreate.
Record t : Type := mk { name : string; price : Decimal; stock_quantity : Z }.
End ProductCreate.

(** ** app/exceptions.py, with the exceptions of Python, SQLAlchemy and
       FastAPI that the modelled code can meet *)

Inductive Exception : Type :=
  | ProductNotFoundError (product_id : Z)
  | OrderNotFoundError (order_id : Z)
  | InsufficientStockError (product_id available requested : Z)
  | InvalidStatusTransitionError (current_status new_status : string)
  | EmptyOrderError
  | KeyError (key : Z)
  | IntegrityError
  | InvalidRequestError
  | RequestValidationError.

(** The [status_code] each exception of [app/exceptions.py] is built with.
    FastAPI answers a body that fails its schema with 422, and the handler
    of [app/main.py] answers every other exception with 500. *)
Definition status_code (e : Exception) : Z :=
  match e with
  | ProductNotFoundError _ => 404
  | OrderNotFoundError _ => 404
  | InsufficientStockError _ _ _ => 400
  | InvalidStatusTransitionError _ _ => 400
  | EmptyOrderError => 400
  | RequestValidationError => 422
  | KeyError _ | IntegrityError | InvalidRequestError => 500
  end.

(** ** The database *)

(** The three tables, each the list of its rows in storage order (the order
    in which a [SELECT] without [ORDER BY] scans them), and the sequences
    behind the [id] columns. *)
Module Database.
Record t : Type := mk {
  products : list Product.t;
  orders : list Order.row;
  order_items : list OrderItem.t;
  products_id_seq : Z;
  orders_id_seq : Z;
  order_items_id_seq : Z;
  now : Z
}.

Definition set_products (d : t) (ps : list Product.t) : t :=
  mk ps (orders d) (order_items d) (products_id_seq d) (orders_id_seq d)
     (order_items_id_seq d) (now d).

(** [db.get(Product, product_id)], as in
    [ProductService.get_product_by_id]. *)
Definition get_product (d : t) (product_id : Z) : option Product.t :=
  find (λ p, bool_decide (Product.id p = product_id)) (products d).

(** [db.get(Order, order_id)], columns only. *)
Definition get_order_row (d : t) (order_id : Z) : option Order.row :=
  find (λ o, bool_decide (Order.row_id o = order_id)) (orders d).

(** The [items] relationship of an order: the rows of [order_items] whose
    [order_id] is the order's. *)
Definition items_of (d : t) (order_id : Z) : list OrderItem.t :=
  List.filter (λ i, bool_decide (OrderItem.order_id i = order_id)) (order_items d).

Definition load_order (d : t) (o : Order.row) : Order.t :=
  Order.mk (Order.row_id o) (Order.row_created_at o) (Order.row_status o)
           (items_of d (Order.row_id o)).
End Database.

(** ** The session

    An [AsyncSession] is one transaction.  [committed] is the durable
    database, [db] the database as the transaction sees it, its own flushed
    writes included.  [identity_map] holds the [Product] objects the
    transaction has loaded, one object per primary key: every reference to
    the product with a given id, in particular [products[product_id]] in
    [create_order], is to that one object, so a write through one reference
    is seen through all.  [new] are the objects added and not yet flushed,
    [row_locks] the product rows the transaction has locked [FOR UPDATE], in
    the order in which it took the locks. *)
Module Session.
Record t : Type := mk {
  committed : Database.t;
  db : Database.t;
  identity_map : gmap Z Product.t;
  new : list OrderItem.t;
  row_locks : list Z
}.

Definition begin (d : Database.t) : t := mk d d ∅ [] [].

Definition set_db (s : t) (d : Database.t) : t :=
  mk (committed s) d (identity_map s) (new s) (row_locks s).
Definition set_identity_map (s : t) (m : gmap Z Product.t) : t :=
  mk (committed s) (db s) m (new s) (row_locks s).
Definition set_new (s : t) (l : list OrderItem.t) : t :=
  mk (committed s) (db s) (identity_map s) l (row_locks s).
Definition set_row_locks (s : t) (l : list Z) : t :=
  mk (committed s) (db s) (identity_map s) (new s) l.
End Session.

(** Code that runs in a session and may raise. *)
Definition M (A : Type) : Type := Session.t → Session.t * (Exception + A).

#[global] Instance M_ret : MRet M := λ A a s, (s, inr a).
#[global] Instance M_bind : MBind M := λ A B f m s,
  match m s with
  | (s', inl e) => (s', inl e)
  | (s', inr a) => f a s'
  end.

Definition raise {A : Type} (e : Exception) : M A := λ s, (s, inl e).
Definition gets {A : Type} (f : Session.t → A) : M A := λ s, (s, inr (f s)).
Definition modify (f : Session.t → Session.t) : M () := λ s, (f s, inr ()).

(** [for x in l: body] *)
Fixpoint for_each {A : Type} (l : list A) (body : A → M ()) : M () :=
  match l with
  | [] => mret ()
  | x :: l' => body x ;; for_each l' body
  end.

(** ** Python dictionaries that are iterated

    [product_quantities] is iterated and its keys are listed, so the order of
    its entries matters: a [dict] keeps its keys in the order in which they
    were first inserted, and an assignment to a key that is present keeps the
    key's place. *)
Definition dict : Type := list (Z * Z).

(** [d.keys()] *)
Definition keys (d : dict) : list Z := d.*1.

(** [d[k] += v] for a key that is present. *)
Fixpoint dict_iadd (d : dict) (k v : Z) : dict :=
  match d with
  | [] => []
  | (k', v') :: d' =>
      if decide (k' = k) then (k', v' + v) :: d' else (k', v') :: dict_iadd d' k v
  end.

(** [d[k] = v] for a key that is absent. *)
Definition dict_setitem_new (d : dict) (k v : Z) : dict := d ++ [(k, v)].

(** [d.get(k)] *)
Definition dict_get (d : dict) (k : Z) : option Z :=
  snd <$> find (λ kv, bool_decide (kv.1 = k)) d.

(** ** app/services/order_service.py *)

(** [VALID_TRANSITIONS], the state machine as the source writes it. *)
Definition VALID_TRANSITIONS : list (OrderStatus * list OrderStatus) :=
  [ (PENDING, [SHIPPED; CANCELLED]);
    (SHIPPED, []);
    (CANCELLED, []) ].

(** [VALID_TRANSITIONS.get(k, set())] *)
Definition VALID_TRANSITIONS_get (k : OrderStatus) : list OrderStatus :=
  match find (λ kv, bool_decide (kv.1 = k)) VALID_TRANSITIONS with
  | Some kv => kv.2
  | None => []
  end.

(** *** What the session does for the service *)

(** The rows of [products] [WHERE id IN ids], in the order in which the
    table stores them: the statement of [create_order] has no [ORDER BY]. *)
Definition selected (ids : list Z) (d : Database.t) : list Product.t :=
  List.filter (λ p, bool_decide (Product.id p ∈ ids)) (Database.products d).

(** The identity map once it has loaded one row: a primary key that it
    already holds keeps its object. *)
Definition load_row (m : gmap Z Product.t) (p : Product.t) : gmap Z Product.t :=
  match m !! Product.id p with
  | Some _ => m
  | None => <[Product.id p := p]> m
  end.

Definition load (rows : list Product.t) (m : gmap Z Product.t) : gmap Z Product.t :=
  fold_left load_row rows m.

(** [db.execute(select(Product).where(Product.id.in_(ids)).with_for_update())]:
    the rows are locked and loaded in the order in which they come. *)
Definition select_products_for_update (ids : list Z) : M (list Product.t) := λ s,
  let rows := selected ids (Session.db s) in
  (Session.set_row_locks
     (Session.set_identity_map s (load rows (Session.identity_map s)))
     (Session.row_locks s ++ (Product.id <$> rows)),
   inr rows).

(** [products[product_id]]: the object, or [KeyError]. *)
Definition products_getitem (product_id : Z) : M Product.t := λ s,
  match Session.identity_map s !! product_id with
  | Some p => (s, inr p)
  | None => (s, inl (KeyError product_id))
  end.

(** [product.stock_quantity = q], a write to the shared object. *)
Definition set_stock_quantity (product : Product.t) (q : Z) : M () :=
  modify (λ s, Session.set_identity_map s
    (<[Product.id product := Product.set_stock_quantity product q]>
       (Session.identity_map s))).

(** [order = Order(status=status); db.add(order); await db.flush()]: the
    [INSERT] takes the next value of the sequence and the server's [now()]. *)
Definition add_order_and_flush (status : string) : M Z := λ s,
  let d := Session.db s in
  let order_id := Database.orders_id_seq d in
  let d' := Database.mk (Database.products d)
              (Database.orders d ++ [Order.mk_row order_id (Database.now d) status])
              (Database.order_items d) (Database.products_id_seq d)
              (order_id + 1) (Database.order_items_id_seq d) (Database.now d) in
  (Session.set_db s d', inr order_id).

(** [db.add(order_item)] *)
Definition add (order_item : OrderItem.t) : M () :=
  modify (λ s, Session.set_new s (Session.new s ++ [order_item])).

(** The [UPDATE] a flush emits for a loaded product whose [stock_quantity]
    differs from its row's. *)
Definition flush_product (m : gmap Z Product.t) (row : Product.t) : Product.t :=
  match m !! Product.id row with
  | Some p => Product.set_stock_quantity row (Product.stock_quantity p)
  | None => row
  end.

(** The [INSERT]s a flush emits for the added items, in the order in which
    they were added, each taking the next value of the sequence. *)
Fixpoint number_items (next : Z) (l : list OrderItem.t) : list OrderItem.t :=
  match l with
  | [] => []
  | i :: l' => OrderItem.set_id i next :: number_items (next + 1) l'
  end.

(** [CheckConstraint("stock_quantity >= 0")] of [products]. *)
Definition check_stock_non_negative (p : Product.t) : bool :=
  bool_decide (0 ≤ Product.stock_quantity p).

(** A row the flush writes ([stock_quantity] changed) against the check
    constraint. *)
Definition violates_check (m : gmap Z Product.t) (row : Product.t) : bool :=
  bool_decide (Product.stock_quantity (flush_product m row) ≠ Product.stock_quantity row)
  && negb (check_stock_non_negative (flush_product m row)).

(** [await db.commit()]: flush the changed products and the added items,
    then make the transaction's view durable.  A row written against the
    check constraint makes the database refuse the flush: [IntegrityError],
    and nothing becomes durable. *)
Definition commit : M () := λ s,
  let d := Session.db s in
  if existsb (violates_check (Session.identity_map s)) (Database.products d)
  then (s, inl IntegrityError)
  else
    let d' := Database.mk
                (flush_product (Session.identity_map s) <$> Database.products d)
                (Database.orders d)
                (Database.order_items d
                   ++ number_items (Database.order_items_id_seq d) (Session.new s))
                (Database.products_id_seq d) (Database.orders_id_seq d)
                (Database.order_items_id_seq d + Z.of_nat (length (Session.new s)))
                (Database.now d) in
    (Session.mk d' d' (Session.identity_map s) [] (Session.row_locks s), inr ()).

(** [await db.refresh(order)]: the row and its items, read again. *)
Definition refresh (order_id : Z) : M Order.t := λ s,
  match Database.get_order_row (Session.db s) order_id with
  | Some o => (s, inr (Database.load_order (Session.db s) o))
  | None => (s, inl InvalidRequestError)
  end.

(** *** OrderService *)

(** Lines 58 to 61, the body of the loop that adds up the quantities asked
    for per product. *)
Definition aggregate_step (product_quantities : dict) (item : OrderItemCreate.t) : dict :=
  if decide (OrderItemCreate.product_id item ∈ keys product_quantities)
  then dict_iadd product_quantities
         (OrderItemCreate.product_id item) (OrderItemCreate.quantity item)
  else dict_setitem_new product_quantities
         (OrderItemCreate.product_id item) (OrderItemCreate.quantity item).

(** Lines 56 to 61: [product_quantities] after the loop. *)
Definition aggregate (items : list OrderItemCreate.t) : dict :=
  fold_left aggregate_step items [].

(** Lines 76 to 116, the transaction once the rows are locked: both
    validations, then the order, its items and the stock, then the commit. *)
Definition validate_and_write (order_data : OrderCreate.t)
    (product_quantities : dict) : M Order.t :=
  let product_ids := keys product_quantities in
  for_each product_ids (λ product_id,
    products ← gets Session.identity_map;
    if decide (products !! product_id = None)
    then raise (ProductNotFoundError product_id)
    else mret ());;
  for_each product_quantities (λ '(product_id, quantity),
    product ← products_getitem product_id;
    if decide (Product.stock_quantity product < quantity)
    then raise (InsufficientStockError product_id
                  (Product.stock_quantity product) quantity)
    else mret ());;
  order_id ← add_order_and_flush (value PENDING);
  for_each (OrderCreate.items order_data) (λ item,
    product ← products_getitem (OrderItemCreate.product_id item);
    set_stock_quantity product
      (Product.stock_quantity product - OrderItemCreate.quantity item);;
    add (OrderItem.mk None order_id (OrderItemCreate.product_id item)
           (OrderItemCreate.quantity item) (Product.price product)));;
  commit;;
  refresh order_id.

(** [OrderService.create_order] *)
Definition create_order (order_data : OrderCreate.t) : M Order.t :=
  let product_quantities := aggregate (OrderCreate.items order_data) in
  let product_ids := keys product_quantities in
  _ ← select_products_for_update product_ids;
  validate_and_write order_data product_quantities.

(** [OrderService.get_order] *)
Definition get_order (order_id : Z) : M Order.t := λ s,
  match Database.get_order_row (Session.db s) order_id with
  | Some o => (s, inr (Database.load_order (Session.db s) o))
  | None => (s, inl (OrderNotFoundError order_id))
  end.

(** [UPDATE orders SET status = ... WHERE id = ...] *)
Definition with_status (d : Database.t) (order_id : Z) (status : string) : Database.t :=
  Database.mk (Database.products d)
    ((λ o, if decide (Order.row_id o = order_id)
           then Order.mk_row (Order.row_id o) (Order.row_created_at o) status
           else o) <$> Database.orders d)
    (Database.order_items d) (Database.products_id_seq d)
    (Database.orders_id_seq d) (Database.order_items_id_seq d) (Database.now d).

(** [order.status = status], written when the session flushes. *)
Definition set_order_status (order_id : Z) (status : string) : M () :=
  modify (λ s, Session.set_db s (with_status (Session.db s) order_id status)).

(** [OrderService.update_order_status] *)
Definition update_order_status (order_id : Z) (new_status : OrderStatus) : M Order.t :=
  order ← gets (λ s, Database.get_order_row (Session.db s) order_id);
  match order with
  | None => raise (OrderNotFoundError order_id)
  | Some order =>
      let current_status :=
        match OrderStatus_of_value (Order.row_status order) with
        | Some st => st
        | None => PENDING
        end in
      let allowed_transitions := VALID_TRANSITIONS_get current_status in
      if decide (new_status ∉ allowed_transitions)
      then raise (InvalidStatusTransitionError (Order.row_status order) (value new_status))
      else
        set_order_status order_id (value new_status);;
        commit;;
        refresh order_id
  end.

(** ** app/services/product_service.py *)

(** [ProductService.create_product]: [db.add(product)], [db.commit()],
    [db.refresh(product)].  The [INSERT] takes the next value of the
    sequence, and the check constraint refuses a negative stock. *)
Definition create_product (product_data : ProductCreate.t) : M Product.t := λ s,
  let d := Session.db s in
  let product := Product.mk (Database.products_id_seq d)
                   (ProductCreate.name product_data)
                   (ProductCreate.price product_data)
                   (ProductCreate.stock_quantity product_data) in
  if check_stock_non_negative product then
    let d' := Database.mk (Database.products d ++ [product]) (Database.orders d)
                (Database.order_items d) (Database.products_id_seq d + 1)
                (Database.orders_id_seq d) (Database.order_items_id_seq d)
                (Database.now d) in
    (Session.mk d' d' (Session.identity_map s) (Session.new s) (Session.row_locks s),
     inr product)
  else (s, inl IntegrityError).

(** [ProductService.get_product_by_id] *)
Definition get_product_by_id (product_id : Z) : M (option Product.t) :=
  gets (λ s, Database.get_product (Session.db s) product_id).

(** ** The request handlers *)

(** Modelled from the spec: [app/database.py] with its [get_db] is not among
    the sources.  Each request runs as an independent transaction in a
    session of its own, and "on any failure ... all effects are discarded":
    what the session has not committed when the handler returns or raises is
    not in the database afterwards. *)
Definition run {A : Type} (handler : M A) (d : Database.t)
    : Database.t * (Exception + A) :=
  let '(s, r) := handler (Session.begin d) in (Session.committed s, r).

(** [OrderItemCreate]: [product_id: int = Field(..., gt=0)],
    [quantity: int = Field(..., gt=0)]. *)
Definition OrderItemCreate_valid (item : OrderItemCreate.t) : bool :=
  bool_decide (0 < OrderItemCreate.product_id item)
  && bool_decide (0 < OrderItemCreate.quantity item).

(** [OrderCreate]: [items: List[OrderItemCreate] = Field(..., min_length=1)]. *)
Definition OrderCreate_valid (order_data : OrderCreate.t) : bool :=
  bool_decide (1 ≤ length (OrderCreate.items order_data))%nat
  && forallb OrderItemCreate_valid (OrderCreate.items order_data).

(** [POST /orders] in [app/routers/orders.py]: FastAPI builds the
    [OrderCreate] from the request body and answers a body that fails the
    schema with a validation error, without calling the handler. *)
Definition post_orders (body : OrderCreate.t) (d : Database.t)
    : Database.t * (Exception + Order.t) :=
  if OrderCreate_valid body then run (create_order body) d
  else (d, inl RequestValidationError).

(** [PATCH /orders/{order_id}/status] *)
Definition patch_order_status (order_id : Z) (status : OrderStatus) (d : Database.t)
    : Database.t * (Exception + Order.t) :=
  run (update_order_status order_id status) d.

(** [ProductCreate]: [name] of 1 to 255 characters, [price > 0],
    [stock_quantity >= 0]. *)
Definition ProductCreate_valid (product_data : ProductCreate.t) : bool :=
  bool_decide (1 ≤ String.length (ProductCreate.name product_data) ≤ 255)%nat
  && bool_decide (0 < ProductCreate.price product_data)
  && bool_decide (0 ≤ ProductCreate.stock_quantity product_data).

(** [POST /products] in [app/routers/products.py] *)
Definition post_products (body : ProductCreate.t) (d : Database.t)
    : Database.t * (Exception + Product.t) :=
  if ProductCreate_valid body then run (create_product body) d
  else (d, inl RequestValidationError).

(** What a test reads of an answer: the status code of a failure. *)
Definition failed {A : Type} (answer : Database.t * (Exception + A)) : option Z :=
  match answer.2 with
  | inl e => Some (status_code e)
  | inr _ => None
  end.

(** And the body of a success. *)
Definition answered {A : Type} (answer : Database.t * (Exception + A)) : option A :=
  match answer.2 with
  | inl _ => None
  | inr a => Some a
  end.

(** Modelled from the spec: no request handler among the sources changes a
    price; the "later price changes" of the specification are an edit of
    the [price] column of a product's row, by whatever means. *)
Definition change_price (product_id : Z) (price : Decimal) (d : Database.t)
    : Database.t :=
  Database.set_products d
    ((λ p, if decide (Product.id p = product_id)
           then Product.mk (Product.id p) (Product.name p) price
                  (Product.stock_quantity p)
           else p) <$> Database.products d).

(** What may happen to the database after an order was created: the
    requests that write, and a change of a price. *)
Inductive Later : Type :=
  | PostProducts (body : ProductCreate.t)
  | PostOrders (body : OrderCreate.t)
  | PatchOrderStatus (order_id : Z) (status : OrderStatus)
  | ChangePrice (product_id : Z) (price : Decimal).

Definition later (d : Database.t) (r : Later) : Database.t :=
  match r with
  | PostProducts body => (post_products body d).1
  | PostOrders body => (post_orders body d).1
  | PatchOrderStatus order_id status => (patch_order_status order_id status d).1
  | ChangePrice product_id price => change_price product_id price d
  end.

(** ** Requests for [POST /orders] in flight at the same time

    A row lock is an exclusive hold on a row that lasts until the holding
    transaction completes.  [SELECT ... FOR UPDATE] takes the locks row by
    row, in the order in which the rows come; where another transaction holds
    the lock it waits, and it reads the row as last committed once it has the
    lock.  What the service does between the [SELECT] and the end of the
    transaction shows to no other transaction before the commit, so it is one
    step here; the locks go when the request has finished. *)
Inductive Request : Type :=
  | Waiting (order_data : OrderCreate.t)
  | Locking (order_data : OrderCreate.t) (todo : list Z)
            (objects : gmap Z Product.t) (locks : list Z)
  | Finished (result : Exception + Order.t).

Module System.
Record t : Type := mk { store : Database.t; requests : list Request }.
End System.

Definition locks_of (r : Request) : list Z :=
  match r with
  | Locking _ _ _ locks => locks
  | _ => []
  end.

Definition held_by_another (i : nat) (rs : list Request) (k : Z) : Prop :=
  ∃ j r, j ≠ i ∧ rs !! j = Some r ∧ k ∈ locks_of r.

(** The row with primary key [k], locked and read as last committed. *)
Definition lock_and_load (d : Database.t) (k : Z) (m : gmap Z Product.t)
    : gmap Z Product.t :=
  match Database.get_product d k with
  | Some p => load_row m p
  | None => m
  end.

(** The transaction from the first validation to its end, in a session that
    holds the objects and locks taken before; the database is as committed
    by then. *)
Definition finish (order_data : OrderCreate.t) (m : gmap Z Product.t)
    (locks : list Z) (d : Database.t) : Database.t * (Exception + Order.t) :=
  let '(s, r) := validate_and_write order_data
                   (aggregate (OrderCreate.items order_data))
                   (Session.mk d d m [] locks) in
  (Session.committed s, r).

Inductive step : System.t → System.t → Prop :=
  | step_select sys i order_data :
      System.requests sys !! i = Some (Waiting order_data) →
      step sys
        (System.mk (System.store sys)
           (<[i := Locking order_data
                     (Product.id <$>
                        selected (keys (aggregate (OrderCreate.items order_data)))
                                 (System.store sys))
                     ∅ []]> (System.requests sys)))
  | step_lock sys i order_data k todo m locks :
      System.requests sys !! i = Some (Locking order_data (k :: todo) m locks) →
      ¬ held_by_another i (System.requests sys) k →
      step sys
        (System.mk (System.store sys)
           (<[i := Locking order_data todo
                     (lock_and_load (System.store sys) k m) (locks ++ [k])]>
              (System.requests sys)))
  | step_finish sys i order_data m locks :
      System.requests sys !! i = Some (Locking order_data [] m locks) →
      step sys
        (System.mk (finish order_data m locks (System.store sys)).1
           (<[i := Finished (finish order_data m locks (System.store sys)).2]>
              (System.requests sys))).

Definition finished (r : Request) : bool :=
  match r with Finished _ => true | _ => false end.




(** ** The vocabulary of the specification *)

(** The aggregated requested quantity of a product: the sum of the
    quantities over all input lines naming it. *)
Definition requested (product_id : Z) (items : list OrderItemCreate.t) : Z :=
  foldr (λ item acc,
           if decide (OrderItemCreate.product_id item = product_id)
           then OrderItemCreate.quantity item + acc else acc) 0 items.

(** The products an order's lines name. *)
Definition referenced (items : list OrderItemCreate.t) : list Z :=
  OrderItemCreate.product_id <$> items.

(** The input that lists each product once, where it first appears, with the
    summed quantity. *)
Definition merged (items : list OrderItemCreate.t) : list OrderItemCreate.t :=
  (λ kv, OrderItemCreate.mk kv.1 kv.2) <$> aggregate items.

(** The stock of a product in the database. *)
Definition stock (d : Database.t) (product_id : Z) : option Z :=
  Product.stock_quantity <$> Database.get_product d product_id.

(** Primary keys and foreign keys as the sequences give them out: every
    order, and every order item's order, is older than the next order. *)
Definition consistent (d : Database.t) : Prop :=
  Forall (λ o, Order.row_id o < Database.orders_id_seq d) (Database.orders d)
  ∧ Forall (λ i, OrderItem.order_id i < Database.orders_id_seq d)
           (Database.order_items d).

(** Ascending, as a list of primary keys. *)
Fixpoint ascending (l : list Z) : Prop :=
  match l with
  | [] => True
  | k :: l' => match l' with [] => True | k' :: _ => k < k' end ∧ ascending l'
  end.

(** ** The session of [create_order], phase by phase *)

(** Every object sits under its own primary key. *)
Definition keyed (m : gmap Z Product.t) : Prop :=
  ∀ k p, m !! k = Some p → Product.id p = k.

(** The first product asked for that the session has not loaded. *)
Definition missing (m : gmap Z Product.t) (ids : list Z) : option Z :=
  find (λ k, bool_decide (m !! k = None)) ids.

Definition stock_of (m : gmap Z Product.t) (k : Z) : Z :=
  match m !! k with Some p => Product.stock_quantity p | None => 0 end.

Definition price_of (m : gmap Z Product.t) (k : Z) : Decimal :=
  match m !! k with Some p => Product.price p | None => 0 end.

(** The first product asked for of which there is too little. *)
Definition short (m : gmap Z Product.t) (product_quantities : dict) : option (Z * Z) :=
  find (λ kv, bool_decide (stock_of m kv.1 < kv.2)) product_quantities.

(** A loaded product after the loop over the lines. *)
Definition settle (items : list OrderItemCreate.t) (p : Product.t) : Product.t :=
  Product.set_stock_quantity p
    (Product.stock_quantity p - requested (Product.id p) items).

(** The order items the loop over the lines adds. *)
Definition lines (order_id : Z) (m : gmap Z Product.t)
    (items : list OrderItemCreate.t) : list OrderItem.t :=
  (λ item, OrderItem.mk None order_id (OrderItemCreate.product_id item)
             (OrderItemCreate.quantity item)
             (price_of m (OrderItemCreate.product_id item))) <$> items.

(** The database a successful [create_order] commits. *)
Definition written (s : Session.t) (items : list OrderItemCreate.t) : Database.t :=
  let d := Session.db s in
  let added := Session.new s
               ++ lines (Database.orders_id_seq d) (Session.identity_map s) items in
  Database.mk
    (flush_product (settle items <$> Session.identity_map s) <$> Database.products d)
    (Database.orders d
       ++ [Order.mk_row (Database.orders_id_seq d) (Database.now d) (value PENDING)])
    (Database.order_items d ++ number_items (Database.order_items_id_seq d) added)
    (Database.products_id_seq d) (Database.orders_id_seq d + 1)
    (Database.order_items_id_seq d + Z.of_nat (length added))
    (Database.now d).

(** The session of a request once [create_order] holds its locks. *)
Definition locked (ids : list Z) (d : Database.t) : Session.t :=
  Session.mk d d (load (selected ids d) ∅) [] (Product.id <$> selected ids d).

(** ** The databases of the tests *)

(** The database of a test before its first request. *)
Definition empty : Database.t := Database.mk [] [] [] 1 1 1 0.

(** [tests/test_orders.py], test_create_order_partial_insufficient_stock:
    Product A at 25.00 with 100 in stock, Product B at 15.50 with 3. *)
Definition product_a : Product.t := Product.mk 1 "Product A" 2500 100.
Definition product_b : Product.t := Product.mk 2 "Product B" 1550 3.

Definition two_products : Database.t :=
  Database.mk [product_a; product_b] [] [] 3 1 1 0.

(** The same two products with the row of Product A stored behind the row of
    Product B, as PostgreSQL leaves them when an [UPDATE] of Product A has
    written its new row version at the end of the table. *)
Definition two_products_moved : Database.t :=
  Database.mk [product_b; product_a] [] [] 3 1 1 0.

Definition line (product_id quantity : Z) : OrderItemCreate.t :=
  OrderItemCreate.mk product_id quantity.

(** An order of 10 of Product A, placed and pending. *)
Definition one_order : Database.t :=
  Eval vm_compute in (run (create_order (OrderCreate.mk [line 1 10])) two_products).1.

(** The same order with a status that is none of the three. *)
Definition one_order_returned : Database.t :=
  Eval vm_compute in with_status one_order 1 "returned".

(** What stays true of an order once stored: the database is consistent, the
    order is older than the next one, and its items are [its]. *)
Definition kept (order_id : Z) (its : list OrderItem.t) (d : Database.t) : Prop :=
  consistent d ∧ order_id < Database.orders_id_seq d
  ∧ Database.items_of d order_id = its.

(** ** [N] requests for one unit of one product *)


Definition holds (r : Request) : Prop := locks_of r ≠ [].

#[global] Instance holds_dec r : Decision (holds r).
Proof. unfold holds. apply _. Defined.






(** A request that runs alone goes through the steps of [create_order] in
    order. *)
Definition alone (order_data : OrderCreate.t) (d : Database.t) (sys : System.t) : Prop :=
  sys = System.mk d [Waiting order_data]
  ∨ (∃ taken todo,
       sys = System.mk d
               [Locking order_data todo
                  (fold_left (λ m k, lock_and_load d k m) taken ∅) taken]
       ∧ taken ++ todo
         = Product.id <$> selected (keys (aggregate (OrderCreate.items order_data))) d)
  ∨ sys = System.mk (run (create_order order_data) d).1
            [Finished (run (create_order order_data) d).2].

(** ** Listing products: app/config.py, [ProductService.get_products] and
       [GET /products] *)

(** [Settings.DEFAULT_PAGE_SIZE] and [Settings.MAX_PAGE_SIZE] *)
Definition DEFAULT_PAGE_SIZE : Z := 10.
Definition MAX_PAGE_SIZE : Z := 100.

(** [ORDER BY products.id] *)
Definition by_id (p q : Product.t) : Prop := Product.id p ≤ Product.id q.

#[global] Instance by_id_dec p q : Decision (by_id p q).
Proof. unfold by_id. apply _. Defined.

Definition order_by_id (rows : list Product.t) : list Product.t :=
  merge_sort by_id rows.

(** [ProductService.get_products]: the count of all rows, then the rows
    [ORDER BY id] from [OFFSET skip] on, [LIMIT limit] of them.  [skip] and
    [limit] count rows: the handler passes no number below 0, and what a
    database does with one is not the service's. *)
Definition get_products (skip limit : nat) : M (list Product.t * Z) :=
  total ← gets (λ s, Z.of_nat (length (Database.products (Session.db s))));
  products ← gets (λ s,
    take limit (drop skip (order_by_id (Database.products (Session.db s)))));
  mret (products, total).

(** [app/schemas/product.py]: a [ProductResponse] has the four columns of a
    [Product], so the items are the products. *)
Module ProductListResponse.
Record t : Type := mk {
  items : list Product.t;
  total : Z;
  skip : Z;
  limit : Z
}.
End ProductListResponse.

(** [GET /products] in [app/routers/products.py]:
    [skip: int = Query(0, ge=0)] and
    [limit: int = Query(default=DEFAULT_PAGE_SIZE, ge=1, le=MAX_PAGE_SIZE)];
    [None] is a query without the parameter. *)
Definition list_products (skip limit : option Z) (d : Database.t)
    : Database.t * (Exception + ProductListResponse.t) :=
  let skip := default 0 skip in
  let limit := default DEFAULT_PAGE_SIZE limit in
  if bool_decide (0 ≤ skip) && bool_decide (1 ≤ limit ≤ MAX_PAGE_SIZE)
  then run ('(products, total) ← get_products (Z.to_nat skip) (Z.to_nat limit);
            mret (ProductListResponse.mk products total skip limit)) d
  else (d, inl RequestValidationError).

(** The rows that [ProductService.get_products] returns for page [i] of
    pages of [limit] rows. *)
Definition page (limit : nat) (d : Database.t) (i : nat) : list Product.t :=
  match (run (get_products (i * limit) limit) d).2 with
  | inr (products, _) => products
  | inl _ => []
  end.

(** The table [products] stores its rows in ascending order of the ids,
    all of them below the sequence: the order in which [create_product]
    inserts them. *)
Definition stored_in_id_order (d : Database.t) : Prop :=
  StronglySorted (λ p q, Product.id p < Product.id q) (Database.products d)
  ∧ Forall (λ p, Product.id p < Database.products_id_seq d) (Database.products d).

#[global] Instance stored_in_id_order_dec d : Decision (stored_in_id_order d).
Proof. unfold stored_in_id_order. apply _. Defined.

(** ** The response schemas of app/schemas/order.py

    [model_validate] builds the response from the attributes of the object
    and raises a [ValidationError] where one does not fit its field:
    [None] here. *)
Module OrderItemResponse.
Record t : Type := mk {
  id : Z;
  product_id : Z;
  quantity : Z;
  price_at_order : Decimal
}.

(** [id: int] takes no [None]. *)
Definition model_validate (item : OrderItem.t) : option t :=
  id ← OrderItem.id item;
  Some (mk id (OrderItem.product_id item) (OrderItem.quantity item)
           (OrderItem.price_at_order item)).
End OrderItemResponse.

Module OrderResponse.
Record t : Type := mk {
  id : Z;
  created_at : Z;
  status : OrderStatus;
  items : list OrderItemResponse.t
}.

(** [status: OrderStatus] takes the value of a member only. *)
Definition model_validate (order : Order.t) : option t :=
  status ← OrderStatus_of_value (Order.status order);
  items ← mapM OrderItemResponse.model_validate (Order.items order);
  Some (mk (Order.id order) (Order.created_at order) status items).
End OrderResponse.

(** ** The vocabulary of the tables *)

(** The status [update_order_status] takes an order to have (lines 175 to
    179): the member of the enum with the stored value, and [PENDING] for a
    stored string that is the value of none. *)
Definition current_status (status : string) : OrderStatus :=
  match OrderStatus_of_value status with
  | Some st => st
  | None => PENDING
  end.

(** The units of a product that the stored order items account for. *)
Definition sold (d : Database.t) (product_id : Z) : Z :=
  foldr (λ i acc,
           if decide (OrderItem.product_id i = product_id)
           then OrderItem.quantity i + acc else acc) 0 (Database.order_items d).

(** The constraints of the tables, as [app/models] and
    [alembic/versions/0001_initial_schema.py] declare them: the primary
    keys, each given out by its sequence, the two foreign keys of
    [order_items], and the check constraint of [products]. *)
Definition integrity (d : Database.t) : Prop :=
  NoDup (Product.id <$> Database.products d)
  ∧ Forall (λ p, Product.id p < Database.products_id_seq d) (Database.products d)
  ∧ Forall (λ p, check_stock_non_negative p = true) (Database.products d)
  ∧ NoDup (Order.row_id <$> Database.orders d)
  ∧ Forall (λ o, Order.row_id o < Database.orders_id_seq d) (Database.orders d)
  ∧ NoDup (OrderItem.id <$> Database.order_items d)
  ∧ Forall (λ i, from_option (λ n, n < Database.order_items_id_seq d) False
                   (OrderItem.id i)) (Database.order_items d)
  ∧ Forall (λ i, OrderItem.order_id i ∈ Order.row_id <$> Database.orders d)
           (Database.order_items d)
  ∧ Forall (λ i, OrderItem.product_id i ∈ Product.id <$> Database.products d)
           (Database.order_items d).

#[global] Instance integrity_dec d : Decision (integrity d).
Proof.
  unfold integrity.
  assert (∀ (s : Z) (mx : option Z), Decision (from_option (λ n, n < s) False mx))
    by (intros s [n|]; simpl; apply _).
  apply _.
Defined.

(** What the request schemas let into the tables: names of 1 to 255
    characters and prices above 0 in [products], a status of the enum and
    one item at least for every order, and quantities and prices above 0 in
    [order_items]. *)
Definition validated (d : Database.t) : Prop :=
  Forall (λ p, (1 ≤ String.length (Product.name p) ≤ 255)%nat ∧ 0 < Product.price p)
         (Database.products d)
  ∧ Forall (λ o, is_Some (OrderStatus_of_value (Order.row_status o))
                 ∧ Database.items_of d (Order.row_id o) ≠ [])
           (Database.orders d)
  ∧ Forall (λ i, 0 < OrderItem.quantity i ∧ 0 < OrderItem.price_at_order i)
           (Database.order_items d).

#[global] Instance validated_dec d : Decision (validated d).
Proof. unfold validated. apply _. Defined.

(** The requests of the API among [Later]. *)
Definition api (r : Later) : bool :=
  match r with
  | ChangePrice _ _ => false
  | _ => true
  end.

(** ** Requests in flight, one after the other *)





(** * The properties *)

(** ** The tests of the repository, on the embedding

    [tests/test_orders.py], each test from the empty database through the
    request handlers. *)

Example two_products_posted :
  (post_products (ProductCreate.mk "Product B" 1550 3)
     (post_products (ProductCreate.mk "Product A" 2500 100) empty).1).1
  = two_products.
Proof. reflexivity. Qed.

Example test_create_order_success :
  let d := (post_products (ProductCreate.mk "Product B" 1550 50)
              (post_products (ProductCreate.mk "Product A" 2500 100) empty).1).1 in
  let answer := post_orders (OrderCreate.mk [line 1 10; line 2 5]) d in
  Order.status <$> answered answer = Some "pending"
  ∧ length ∘ Order.items <$> answered answer = Some 2%nat
  ∧ stock answer.1 1 = Some 90
  ∧ stock answer.1 2 = Some 45.
Proof. by vm_compute. Qed.

Example test_create_order_insufficient_stock :
  let d := (post_products (ProductCreate.mk "Limited Product" 5000 5) empty).1 in
  let answer := post_orders (OrderCreate.mk [line 1 10]) d in
  answer.2 = inl (InsufficientStockError 1 5 10)
  ∧ failed answer = Some 400
  ∧ stock answer.1 1 = Some 5.
Proof. by vm_compute. Qed.

Example test_create_order_partial_insufficient_stock :
  let answer := post_orders (OrderCreate.mk [line 1 10; line 2 5]) two_products in
  failed answer = Some 400
  ∧ stock answer.1 1 = Some 100
  ∧ stock answer.1 2 = Some 3.
Proof. by vm_compute. Qed.

Example test_create_order_product_not_found :
  failed (post_orders (OrderCreate.mk [line 99999 1]) empty) = Some 404.
Proof. by vm_compute. Qed.

Example test_get_order_details :
  let d := (post_products (ProductCreate.mk "Test Product" 3000 50) empty).1 in
  let d' := (post_orders (OrderCreate.mk [line 1 3]) d).1 in
  answered (run (get_order 1) d')
  = Some (Order.mk 1 0 "pending" [OrderItem.mk (Some 1) 1 1 3 3000]).
Proof. by vm_compute. Qed.

Example test_get_order_not_found :
  failed (run (get_order 99999) empty) = Some 404.
Proof. by vm_compute. Qed.

Example test_update_order_status_valid_transition :
  let d := (post_products (ProductCreate.mk "Test Product" 2000 10) empty).1 in
  let d' := (post_orders (OrderCreate.mk [line 1 1]) d).1 in
  Order.status <$> answered (patch_order_status 1 SHIPPED d') = Some "shipped".
Proof. by vm_compute. Qed.

Example test_update_order_status_invalid_transition :
  let d := (post_products (ProductCreate.mk "Test Product" 2000 10) empty).1 in
  let d' := (post_orders (OrderCreate.mk [line 1 1]) d).1 in
  let shipped := (patch_order_status 1 SHIPPED d').1 in
  (patch_order_status 1 PENDING shipped).2
  = inl (InvalidStatusTransitionError "shipped" "pending")
  ∧ failed (patch_order_status 1 PENDING shipped) = Some 400.
Proof. by vm_compute. Qed.

Example test_update_cancelled_order_status :
  let d := (post_products (ProductCreate.mk "Test Product" 2000 10) empty).1 in
  let d' := (post_orders (OrderCreate.mk [line 1 1]) d).1 in
  let cancelled := (patch_order_status 1 CANCELLED d').1 in
  failed (patch_order_status 1 SHIPPED cancelled) = Some 400.
Proof. by vm_compute. Qed.

(** [tests/test_products.py] *)

Example test_create_product_success :
  let answer := post_products (ProductCreate.mk "Test Product" 1999 100) empty in
  failed answer = None
  ∧ Product.name <$> answered answer = Some "Test Product"
  ∧ Product.price <$> answered answer = Some 1999
  ∧ Product.stock_quantity <$> answered answer = Some 100
  ∧ is_Some (Product.id <$> answered answer).
Proof. vm_compute. split_and!; [done..|by eexists]. Qed.

Example test_create_product_invalid_price :
  failed (post_products (ProductCreate.mk "Test Product" (-1000) 100) empty) = Some 422.
Proof. by vm_compute. Qed.

Example test_create_product_negative_stock :
  failed (post_products (ProductCreate.mk "Test Product" 1999 (-5)) empty) = Some 422.
Proof. by vm_compute. Qed.

Example test_list_products_empty :
  let answer := list_products None None empty in
  failed answer = None
  ∧ ProductListResponse.items <$> answered answer = Some []
  ∧ ProductListResponse.total <$> answered answer = Some 0.
Proof. by vm_compute. Qed.

Example test_list_products_with_pagination :
  let names := ["Product 0"; "Product 1"; "Product 2"; "Product 3"; "Product 4";
                "Product 5"; "Product 6"; "Product 7"; "Product 8"; "Product 9";
                "Product 10"; "Product 11"; "Product 12"; "Product 13";
                "Product 14"] in
  let d := fold_left (λ d name, (post_products (ProductCreate.mk name 1000 50) d).1)
             names empty in
  let first := list_products (Some 0) (Some 10) d in
  let second := list_products (Some 10) (Some 10) d in
  failed first = None
  ∧ length ∘ ProductListResponse.items <$> answered first = Some 10%nat
  ∧ ProductListResponse.total <$> answered first = Some 15
  ∧ failed second = None
  ∧ length ∘ ProductListResponse.items <$> answered second = Some 5%nat
  ∧ ProductListResponse.total <$> answered second = Some 15.
Proof. by vm_compute. Qed.

(** ** [create_order] *)

(** *** Dictionaries and the aggregated quantities *)

Lemma keys_dict_iadd d k v : keys (dict_iadd d k v) = keys d.
Proof.
  unfold keys. induction d as [|[k' v'] d IH]; csimpl; [done|].
  case_decide; csimpl; [done|]. by rewrite IH.
Qed.

Lemma dict_get_None d k : dict_get d k = None ↔ k ∉ keys d.
Proof.
  unfold dict_get, keys. induction d as [|[k' v'] d IH]; csimpl.
  - split; [intros _; apply not_elem_of_nil | done].
  - rewrite not_elem_of_cons. case_bool_decide; simplify_eq/=.
    + split; [done|]. by intros [? _].
    + rewrite IH. split; [done|]. by intros [_ ?].
Qed.

Lemma dict_get_iadd d k v k' :
  dict_get (dict_iadd d k v) k' =
  if decide (k' = k) then (λ x, x + v) <$> dict_get d k else dict_get d k'.
Proof.
  unfold dict_get. induction d as [|[k0 v0] d IH]; simpl.
  - by case_decide.
  - repeat (case_decide || case_bool_decide; simplify_eq/=); done.
Qed.

Lemma dict_get_setitem_new d k v k' :
  k ∉ keys d →
  dict_get (dict_setitem_new d k v) k' =
  if decide (k' = k) then Some v else dict_get d k'.
Proof.
  unfold dict_get, dict_setitem_new, keys.
  induction d as [|[k0 v0] d IH]; csimpl; intros Hk.
  - repeat (case_decide || case_bool_decide; simplify_eq/=); done.
  - apply not_elem_of_cons in Hk as [Hk1 Hk2].
    case_bool_decide; simplify_eq/=.
    + by rewrite decide_False.
    + by apply IH.
Qed.

Lemma dict_get_aggregate_step d item k :
  dict_get (aggregate_step d item) k =
  if decide (k = OrderItemCreate.product_id item)
  then Some (default 0 (dict_get d k) + OrderItemCreate.quantity item)
  else dict_get d k.
Proof.
  unfold aggregate_step. case_decide as Hin.
  - rewrite dict_get_iadd. case_decide; [subst|done].
    destruct (dict_get d _) eqn:E; [done|].
    apply dict_get_None in E. done.
  - rewrite dict_get_setitem_new by done. case_decide; [subst|done].
    apply dict_get_None in Hin. by rewrite Hin.
Qed.

Lemma requested_cons k item items :
  requested k (item :: items) =
  (if decide (OrderItemCreate.product_id item = k)
   then OrderItemCreate.quantity item else 0) + requested k items.
Proof. unfold requested. simpl. case_decide; lia. Qed.

Lemma referenced_cons k item items :
  k ∈ referenced (item :: items) ↔
  k = OrderItemCreate.product_id item ∨ k ∈ referenced items.
Proof. unfold referenced. rewrite fmap_cons. apply elem_of_cons. Qed.

Lemma dict_get_fold d items k :
  dict_get (fold_left aggregate_step items d) k =
  match dict_get d k with
  | Some v => Some (v + requested k items)
  | None => if decide (k ∈ referenced items) then Some (requested k items) else None
  end.
Proof.
  revert d. induction items as [|item items IH]; intros d.
  - simpl. destruct (dict_get d k); [f_equal; lia|done].
  - cbn [fold_left]. rewrite IH, dict_get_aggregate_step, requested_cons.
    destruct (decide (k = OrderItemCreate.product_id item)) as [->|Hne].
    + rewrite (decide_True (P := _ = _)) by done.
      destruct (dict_get d _); simpl; [f_equal; lia|].
      rewrite decide_True by (apply referenced_cons; by left). f_equal; lia.
    + rewrite (decide_False (P := _ = _)) by done.
      destruct (dict_get d k); [done|]. rewrite Z.add_0_l.
      apply decide_ext. rewrite referenced_cons. intuition congruence.
Qed.

Lemma NoDup_keys_aggregate_step d item :
  NoDup (keys d) → NoDup (keys (aggregate_step d item)).
Proof.
  intros Hd. unfold aggregate_step. case_decide.
  - by rewrite keys_dict_iadd.
  - unfold dict_setitem_new, keys. rewrite fmap_app. simpl.
    apply NoDup_app. split_and!; [done| |apply NoDup_singleton].
    intros x Hx Hx'. apply list_elem_of_singleton in Hx'. by subst.
Qed.

Lemma NoDup_keys_fold d items :
  NoDup (keys d) → NoDup (keys (fold_left aggregate_step items d)).
Proof.
  revert d. induction items; simpl; intros d Hd; [done|].
  apply IHitems. by apply NoDup_keys_aggregate_step.
Qed.

Lemma NoDup_keys_aggregate items : NoDup (keys (aggregate items)).
Proof. apply NoDup_keys_fold. constructor. Qed.

Lemma dict_get_aggregate items k :
  dict_get (aggregate items) k =
  if decide (k ∈ referenced items) then Some (requested k items) else None.
Proof. unfold aggregate. by rewrite dict_get_fold. Qed.

Lemma elem_of_keys_aggregate items k :
  k ∈ keys (aggregate items) ↔ k ∈ referenced items.
Proof.
  destruct (decide (k ∈ keys (aggregate items))) as [Hin|Hnin].
  - split; [|done]. intros _.
    destruct (decide (k ∈ referenced items)) as [|Hn]; [done|].
    assert (dict_get (aggregate items) k = None) as E.
    { rewrite dict_get_aggregate. by rewrite decide_False. }
    apply dict_get_None in E. done.
  - split; [done|]. intros Hr. apply dict_get_None in Hnin.
    rewrite dict_get_aggregate, decide_True in Hnin; done.
Qed.

Lemma dict_get_elem_of d k v : (k, v) ∈ d → NoDup (keys d) → dict_get d k = Some v.
Proof.
  unfold dict_get, keys. induction d as [|[k0 v0] d IH]; csimpl; intros Hin Hnd.
  - by apply elem_of_nil in Hin.
  - apply NoDup_cons in Hnd as [Hk0 Hnd].
    apply elem_of_cons in Hin as [Heq|Hin].
    + simplify_eq. by rewrite bool_decide_eq_true_2.
    + case_bool_decide; simplify_eq/=.
      * exfalso. apply Hk0. apply list_elem_of_fmap. by exists (k, v).
      * by apply IH.
Qed.

Lemma elem_of_aggregate items k v :
  (k, v) ∈ aggregate items → k ∈ referenced items ∧ v = requested k items.
Proof.
  intros Hin.
  assert (k ∈ keys (aggregate items)) as Hk.
  { apply list_elem_of_fmap. by exists (k, v). }
  apply elem_of_keys_aggregate in Hk. split; [done|].
  apply dict_get_elem_of in Hin; [|apply NoDup_keys_aggregate].
  rewrite dict_get_aggregate, decide_True in Hin by done. congruence.
Qed.


(** *** The loops of [create_order] in a session *)

Lemma bind_run {A B} (m : M A) (f : A → M B) s :
  (m ≫= f) s = match m s with
               | (s', inl e) => (s', inl e)
               | (s', inr a) => f a s'
               end.
Proof. reflexivity. Qed.

Lemma loop_exist s ids :
  for_each ids (λ product_id,
    products ← gets Session.identity_map;
    if decide (products !! product_id = None)
    then raise (ProductNotFoundError product_id)
    else mret ()) s =
  match missing (Session.identity_map s) ids with
  | Some k => (s, inl (ProductNotFoundError k))
  | None => (s, inr ())
  end.
Proof.
  unfold missing. induction ids as [|k ids IH]; [done|].
  cbn [for_each find]. rewrite bind_run. unfold gets at 1. rewrite bind_run. cbn [gets].
  case_decide as Hk.
  - by rewrite bool_decide_eq_true_2.
  - rewrite bool_decide_eq_false_2 by done. apply IH.
Qed.

Lemma loop_stock s (product_quantities : dict) :
  missing (Session.identity_map s) (keys product_quantities) = None →
  for_each product_quantities (λ '(product_id, quantity),
    product ← products_getitem product_id;
    if decide (Product.stock_quantity product < quantity)
    then raise (InsufficientStockError product_id
                  (Product.stock_quantity product) quantity)
    else mret ()) s =
  match short (Session.identity_map s) product_quantities with
  | Some kv => (s, inl (InsufficientStockError kv.1
                          (stock_of (Session.identity_map s) kv.1) kv.2))
  | None => (s, inr ())
  end.
Proof.
  unfold missing, short, keys.
  induction product_quantities as [|[k v] pq IH]; [done|].
  csimpl. intros Hm. case_bool_decide as Hk; [done|].
  destruct (Session.identity_map s !! k) as [p|] eqn:Ep; [|done].
  assert (products_getitem k s = (s, inr p)) as Hg
    by (unfold products_getitem; by rewrite Ep).
  assert (stock_of (Session.identity_map s) k = Product.stock_quantity p) as Hs
    by (unfold stock_of; by rewrite Ep).
  rewrite Hs. rewrite bind_run, bind_run, Hg. case_decide as Hlt.
  - rewrite bool_decide_eq_true_2 by done. simpl. by rewrite Hs.
  - rewrite bool_decide_eq_false_2 by done. by apply IH.
Qed.

Lemma settle_nil p : settle [] p = p.
Proof.
  unfold settle, Product.set_stock_quantity. destruct p; simpl. f_equal.
  unfold requested; simpl. lia.
Qed.

Lemma price_of_insert (m : gmap Z Product.t) p q k :
  m !! Product.id p = Some p →
  price_of (<[Product.id p := Product.set_stock_quantity p q]> m) k = price_of m k.
Proof.
  intros Hp. unfold price_of. destruct (decide (Product.id p = k)) as [<-|Hne].
  - by rewrite lookup_insert_eq, Hp.
  - by rewrite lookup_insert_ne.
Qed.

Lemma lines_insert oid (m : gmap Z Product.t) p q items :
  m !! Product.id p = Some p →
  lines oid (<[Product.id p := Product.set_stock_quantity p q]> m) items = lines oid m items.
Proof.
  intros Hp. unfold lines. apply list_fmap_ext. intros _ item _.
  by rewrite price_of_insert.
Qed.

Lemma settle_insert (m : gmap Z Product.t) item items p :
  keyed m →
  m !! OrderItemCreate.product_id item = Some p →
  settle items <$>
    <[Product.id p := Product.set_stock_quantity p
        (Product.stock_quantity p - OrderItemCreate.quantity item)]> m
  = settle (item :: items) <$> m.
Proof.
  intros Hkey Hp. pose proof (Hkey _ _ Hp) as Hid.
  apply map_eq. intros k. rewrite !lookup_fmap.
  destruct (decide (Product.id p = k)) as [<-|Hne].
  - rewrite lookup_insert_eq, Hid, Hp. simpl. f_equal.
    unfold settle, Product.set_stock_quantity.
    cbn [Product.id Product.name Product.price Product.stock_quantity].
    rewrite requested_cons, decide_True by done. f_equal. lia.
  - rewrite lookup_insert_ne by done.
    destruct (m !! k) as [p'|] eqn:Ek; [|done]. simpl. f_equal.
    unfold settle. rewrite requested_cons, decide_False; [done|].
    rewrite (Hkey _ _ Ek). congruence.
Qed.

Lemma keyed_insert (m : gmap Z Product.t) p q :
  keyed m → keyed (<[Product.id p := Product.set_stock_quantity p q]> m).
Proof.
  intros Hkey k p'. destruct (decide (Product.id p = k)) as [<-|Hne].
  - rewrite lookup_insert_eq. by intros [= <-].
  - rewrite lookup_insert_ne by done. apply Hkey.
Qed.

Lemma loop_items s order_id items :
  keyed (Session.identity_map s) →
  (∀ k, k ∈ referenced items → is_Some (Session.identity_map s !! k)) →
  for_each items (λ item,
    product ← products_getitem (OrderItemCreate.product_id item);
    set_stock_quantity product
      (Product.stock_quantity product - OrderItemCreate.quantity item);;
    add (OrderItem.mk None order_id (OrderItemCreate.product_id item)
           (OrderItemCreate.quantity item) (Product.price product))) s =
  (Session.mk (Session.committed s) (Session.db s)
     (settle items <$> Session.identity_map s)
     (Session.new s ++ lines order_id (Session.identity_map s) items)
     (Session.row_locks s), inr ()).
Proof.
  revert s. induction items as [|item items IH]; intros s Hkey Hall.
  - simpl. unfold mret, M_ret. f_equal. destruct s; simpl. f_equal.
    + rewrite <-(map_fmap_id identity_map) at 1. apply map_fmap_ext.
      intros ? ? ?. by rewrite settle_nil.
    + by rewrite app_nil_r.
  - destruct (Hall (OrderItemCreate.product_id item)) as [p Hp];
      [apply referenced_cons; by left|].
    pose proof (Hkey _ _ Hp) as Hid.
    assert (products_getitem (OrderItemCreate.product_id item) s = (s, inr p)) as Hg
      by (unfold products_getitem; by rewrite Hp).
    cbn [for_each]. rewrite bind_run, bind_run, Hg, bind_run.
    unfold set_stock_quantity at 1, add at 1, modify.
    rewrite IH; cbn [Session.identity_map Session.set_identity_map Session.set_new
                     Session.committed Session.db Session.new Session.row_locks].
    + rewrite settle_insert by done. rewrite lines_insert by (by rewrite Hid).
      rewrite <-app_assoc. do 3 f_equal.
      assert (price_of (Session.identity_map s) (OrderItemCreate.product_id item)
              = Product.price p) as Hpr by (unfold price_of; by rewrite Hp).
      unfold lines. by rewrite fmap_cons, Hpr.
    + by apply keyed_insert.
    + intros k Hk. rewrite Hid. apply lookup_insert_is_Some'. right.
      apply Hall, referenced_cons. by right.
Qed.

(** *** From the validations to the commit *)

Lemma dict_get_Some d k v : dict_get d k = Some v → (k, v) ∈ d.
Proof.
  unfold dict_get. destruct (find _ d) as [[k' v']|] eqn:E; [|done].
  intros [= <-]. apply find_some in E as [Hin Hk].
  apply bool_decide_eq_true in Hk. simpl in Hk. subst. by apply list_elem_of_In.
Qed.

Lemma missing_None (m : gmap Z Product.t) ids k :
  missing m ids = None → k ∈ ids → is_Some (m !! k).
Proof.
  unfold missing. intros Hf Hk. apply list_elem_of_In in Hk.
  pose proof (find_none _ _ Hf _ Hk) as Hb. simpl in Hb.
  apply bool_decide_eq_false in Hb. by apply not_eq_None_Some.
Qed.

Lemma short_None (m : gmap Z Product.t) pq k v :
  short m pq = None → (k, v) ∈ pq → v ≤ stock_of m k.
Proof.
  unfold short. intros Hf Hk. apply list_elem_of_In in Hk.
  pose proof (find_none _ _ Hf _ Hk) as Hb. simpl in Hb.
  apply bool_decide_eq_false in Hb. lia.
Qed.

Lemma aggregate_requested items k :
  k ∈ referenced items → (k, requested k items) ∈ aggregate items.
Proof.
  intros Hk. apply dict_get_Some. by rewrite dict_get_aggregate, decide_True.
Qed.

Lemma commit_accepts (m : gmap Z Product.t) items rows :
  keyed m →
  (∀ k, is_Some (m !! k) → k ∈ referenced items) →
  short m (aggregate items) = None →
  existsb (violates_check (settle items <$> m)) rows = false.
Proof.
  intros Hkey Hdom Hshort. apply not_true_is_false. intros Hex.
  apply existsb_exists in Hex as (row & _ & Hv).
  unfold violates_check, flush_product in Hv. rewrite lookup_fmap in Hv.
  destruct (m !! Product.id row) as [p|] eqn:Ep; simpl in Hv.
  - apply andb_prop in Hv as [_ Hneg]. apply negb_true_iff in Hneg.
    unfold check_stock_non_negative in Hneg. simpl in Hneg.
    apply bool_decide_eq_false in Hneg.
    pose proof (Hkey _ _ Ep) as Hid. rewrite Hid in Hneg.
    assert (Product.id row ∈ referenced items) as Hr by (apply Hdom; by rewrite Ep).
    pose proof (short_None _ _ _ _ Hshort (aggregate_requested _ _ Hr)) as Hle.
    unfold stock_of in Hle. rewrite Ep in Hle. lia.
  - apply andb_prop in Hv as [Hne _]. apply bool_decide_eq_true in Hne. done.
Qed.

Lemma validate_and_write_eq order_data s :
  let items := OrderCreate.items order_data in
  let m := Session.identity_map s in
  keyed m →
  (∀ k, is_Some (m !! k) → k ∈ referenced items) →
  validate_and_write order_data (aggregate items) s =
  match missing m (keys (aggregate items)) with
  | Some k => (s, inl (ProductNotFoundError k))
  | None =>
      match short m (aggregate items) with
      | Some kv => (s, inl (InsufficientStockError kv.1 (stock_of m kv.1) kv.2))
      | None =>
          refresh (Database.orders_id_seq (Session.db s))
            (Session.mk (written s items) (written s items)
               (settle items <$> m) [] (Session.row_locks s))
      end
  end.
Proof.
  intros items m Hkey Hdom. unfold validate_and_write.
  rewrite bind_run, loop_exist. fold items m.
  destruct (missing m (keys (aggregate items))) as [k|] eqn:Hmiss; [done|].
  rewrite bind_run, loop_stock by done. fold m.
  destruct (short m (aggregate items)) as [kv|] eqn:Hshort; [done|].
  rewrite bind_run. unfold add_order_and_flush at 1.
  rewrite bind_run, loop_items; cycle 1.
  { done. }
  { intros k Hk. cbn. apply (missing_None _ _ _ Hmiss).
    by apply elem_of_keys_aggregate. }
  rewrite bind_run. unfold commit at 1.
  cbn [Session.identity_map Session.set_db Session.db Session.new
       Session.committed Session.row_locks Database.products].
  fold m. rewrite commit_accepts by done. reflexivity.
Qed.

(** *** The locking [SELECT] *)

Lemma select_begin ids d :
  select_products_for_update ids (Session.begin d) = (locked ids d, inr (selected ids d)).
Proof. reflexivity. Qed.

Lemma load_lookup rows (m : gmap Z Product.t) k :
  load rows m !! k =
  match m !! k with
  | Some p => Some p
  | None => find (λ p, bool_decide (Product.id p = k)) rows
  end.
Proof.
  unfold load. revert m. induction rows as [|row rows IH]; intros m; simpl.
  - by destruct (m !! k).
  - rewrite IH. unfold load_row.
    destruct (m !! Product.id row) as [p0|] eqn:E0.
    + destruct (m !! k) eqn:Ek; [done|].
      case_bool_decide; [congruence|done].
    + destruct (decide (Product.id row = k)) as [<-|Hne].
      * by rewrite lookup_insert_eq, E0, bool_decide_eq_true_2.
      * rewrite lookup_insert_ne by done.
        by rewrite (bool_decide_eq_false_2 (Product.id row = k)).
Qed.

Lemma find_selected ids d k :
  find (λ p, bool_decide (Product.id p = k)) (selected ids d) =
  if decide (k ∈ ids) then Database.get_product d k else None.
Proof.
  unfold selected, Database.get_product.
  induction (Database.products d) as [|row rows IH]; simpl.
  - by case_decide.
  - case_bool_decide as Hin; simpl.
    + rewrite IH. case_bool_decide as Hk; [|done]. subst. by case_decide.
    + rewrite IH. case_bool_decide as Hk; [|done]. subst. by case_decide.
Qed.

Lemma locked_lookup ids d k :
  Session.identity_map (locked ids d) !! k =
  if decide (k ∈ ids) then Database.get_product d k else None.
Proof. simpl. by rewrite load_lookup, lookup_empty, find_selected. Qed.

Lemma get_product_id d k p : Database.get_product d k = Some p → Product.id p = k.
Proof.
  unfold Database.get_product. intros H. apply find_some in H as [_ H].
  by apply bool_decide_eq_true in H.
Qed.

Lemma locked_keyed ids d : keyed (Session.identity_map (locked ids d)).
Proof.
  intros k p. rewrite locked_lookup. case_decide; [|done]. apply get_product_id.
Qed.

Lemma locked_dom ids d k : is_Some (Session.identity_map (locked ids d) !! k) → k ∈ ids.
Proof. rewrite locked_lookup. case_decide; [done|]. by intros [? ?]. Qed.

Lemma create_order_eq order_data d :
  let items := OrderCreate.items order_data in
  let s := locked (keys (aggregate items)) d in
  let m := Session.identity_map s in
  create_order order_data (Session.begin d) =
  match missing m (keys (aggregate items)) with
  | Some k => (s, inl (ProductNotFoundError k))
  | None =>
      match short m (aggregate items) with
      | Some kv => (s, inl (InsufficientStockError kv.1 (stock_of m kv.1) kv.2))
      | None =>
          refresh (Database.orders_id_seq d)
            (Session.mk (written s items) (written s items)
               (settle items <$> m) [] (Session.row_locks s))
      end
  end.
Proof.
  intros items s m. unfold create_order. rewrite bind_run, select_begin.
  apply validate_and_write_eq.
  - apply locked_keyed.
  - intros k Hk. apply locked_dom in Hk. by apply elem_of_keys_aggregate.
Qed.

Lemma refresh_written s items :
  ∃ o, Database.get_order_row (written s items)
         (Database.orders_id_seq (Session.db s)) = Some o.
Proof.
  unfold Database.get_order_row, written. cbn [Database.orders].
  destruct (find _ _) as [o|] eqn:E; [by exists o|].
  exfalso.
  pose proof (find_none _ _ E
    (Order.mk_row (Database.orders_id_seq (Session.db s))
                  (Database.now (Session.db s)) (value PENDING))) as Hf.
  simpl in Hf. rewrite bool_decide_eq_true_2 in Hf by done.
  discriminate Hf. apply in_or_app. right. by left.
Qed.

(** *** How [create_order] ends *)

Lemma missing_Some (m : gmap Z Product.t) ids k :
  missing m ids = Some k → k ∈ ids ∧ m !! k = None.
Proof.
  unfold missing. intros H. apply find_some in H as [Hin Hb].
  apply bool_decide_eq_true in Hb. split; [by apply list_elem_of_In|done].
Qed.

Lemma short_Some (m : gmap Z Product.t) pq kv :
  short m pq = Some kv → kv ∈ pq ∧ stock_of m kv.1 < kv.2.
Proof.
  unfold short. intros H. apply find_some in H as [Hin Hb].
  apply bool_decide_eq_true in Hb. split; [by apply list_elem_of_In|done].
Qed.

(** The three ways in which [create_order] ends. *)
Lemma create_order_cases order_data d :
  let items := OrderCreate.items order_data in
  let s := locked (keys (aggregate items)) d in
  let m := Session.identity_map s in
  (∃ k, missing m (keys (aggregate items)) = Some k
        ∧ create_order order_data (Session.begin d)
          = (s, inl (ProductNotFoundError k)))
  ∨ (∃ kv, missing m (keys (aggregate items)) = None
           ∧ short m (aggregate items) = Some kv
           ∧ create_order order_data (Session.begin d)
             = (s, inl (InsufficientStockError kv.1 (stock_of m kv.1) kv.2)))
  ∨ (∃ o, missing m (keys (aggregate items)) = None
          ∧ short m (aggregate items) = None
          ∧ Database.get_order_row (written s items) (Database.orders_id_seq d) = Some o
          ∧ create_order order_data (Session.begin d)
            = (Session.mk (written s items) (written s items)
                 (settle items <$> m) [] (Session.row_locks s),
               inr (Database.load_order (written s items) o))).
Proof.
  intros items s m. rewrite create_order_eq. fold items s m.
  destruct (missing m (keys (aggregate items))) as [k|] eqn:Hmiss.
  { left. by exists k. }
  right. destruct (short m (aggregate items)) as [kv|] eqn:Hshort.
  { left. by exists kv. }
  right. destruct (refresh_written s items) as [o Ho].
  change (Session.db s) with d in Ho. exists o.
  split_and!; [done..|]. unfold refresh. cbn [Session.db]. by rewrite Ho.
Qed.

Lemma get_order_row_id d k o : Database.get_order_row d k = Some o → Order.row_id o = k.
Proof.
  unfold Database.get_order_row. intros H. apply find_some in H as [_ H].
  by apply bool_decide_eq_true in H.
Qed.

(** A [create_order] that raises stops in the session that holds the locks,
    at the first product that is missing or of which there is too little. *)
Lemma create_order_raises order_data d s e :
  create_order order_data (Session.begin d) = (s, inl e) →
  let items := OrderCreate.items order_data in
  let m := Session.identity_map (locked (keys (aggregate items)) d) in
  s = locked (keys (aggregate items)) d
  ∧ ((∃ k, missing m (keys (aggregate items)) = Some k ∧ e = ProductNotFoundError k)
     ∨ (∃ kv, missing m (keys (aggregate items)) = None
              ∧ short m (aggregate items) = Some kv
              ∧ e = InsufficientStockError kv.1 (stock_of m kv.1) kv.2)).
Proof.
  intros Hrun.
  destruct (create_order_cases order_data d)
    as [(k & Hmiss & E)|[(kv & Hmiss & Hshort & E)|(o & _ & _ & _ & E)]];
    rewrite E in Hrun; simplify_eq; (split; [done|]).
  - left. by exists k.
  - right. by exists kv.
Qed.

Lemma run_create_order_raises order_data d d' e :
  run (create_order order_data) d = (d', inl e) →
  d' = d ∧ create_order order_data (Session.begin d)
           = (locked (keys (aggregate (OrderCreate.items order_data))) d, inl e).
Proof.
  unfold run. destruct (create_order order_data (Session.begin d)) as [s r] eqn:E.
  intros [= <- ->]. by apply create_order_raises in E as [-> _].
Qed.

(** A [create_order] that returns has passed both validations and has
    committed [written]. *)
Lemma run_create_order_returns order_data d d' order :
  run (create_order order_data) d = (d', inr order) →
  let items := OrderCreate.items order_data in
  let s := locked (keys (aggregate items)) d in
  d' = written s items
  ∧ Order.id order = Database.orders_id_seq d
  ∧ Order.items order = Database.items_of d' (Database.orders_id_seq d)
  ∧ missing (Session.identity_map s) (keys (aggregate items)) = None
  ∧ short (Session.identity_map s) (aggregate items) = None.
Proof.
  unfold run. intros Hrun.
  destruct (create_order_cases order_data d)
    as [(k & _ & E)|[(kv & _ & _ & E)|(o & Hmiss & Hshort & Ho & E)]];
    rewrite E in Hrun; cbv beta iota in Hrun; cbn [Session.committed] in Hrun;
    simplify_eq.
  cbn [Database.load_order Order.id Order.items].
  by rewrite (get_order_row_id _ _ _ Ho).
Qed.

(** *** The stock after the call *)

Lemma flush_product_id (m : gmap Z Product.t) row :
  Product.id (flush_product m row) = Product.id row.
Proof. unfold flush_product. by destruct (m !! Product.id row). Qed.

Lemma find_flush (m : gmap Z Product.t) rows k :
  find (λ p, bool_decide (Product.id p = k)) (flush_product m <$> rows)
  = flush_product m <$> find (λ p, bool_decide (Product.id p = k)) rows.
Proof.
  induction rows as [|row rows IH]; [done|]. csimpl.
  rewrite flush_product_id. by case_bool_decide.
Qed.

Lemma requested_not_referenced k items : k ∉ referenced items → requested k items = 0.
Proof.
  induction items as [|item items IH]; [done|].
  rewrite referenced_cons, requested_cons. intros Hk.
  rewrite decide_False by (intros Heq; apply Hk; by left).
  rewrite IH; [done|]. intros ?. apply Hk. by right.
Qed.

Lemma stock_written ids d items k :
  (∀ k, k ∈ ids ↔ k ∈ referenced items) →
  stock (written (locked ids d) items) k = (λ q, q - requested k items) <$> stock d k.
Proof.
  intros Hids. unfold stock, written, Database.get_product at 1.
  cbn [Database.products Session.db locked]. rewrite find_flush.
  fold (Database.get_product d k).
  destruct (Database.get_product d k) as [p|] eqn:Ep; [|done]. simpl. f_equal.
  pose proof (get_product_id _ _ _ Ep) as Hid.
  unfold flush_product. rewrite lookup_fmap.
  change (load (selected ids d) ∅) with (Session.identity_map (locked ids d)).
  rewrite locked_lookup, Hid. case_decide as Hin.
  - rewrite Ep. simpl. by rewrite Hid.
  - simpl. rewrite requested_not_referenced; [lia|]. by rewrite <-Hids.
Qed.

(** C1. A successful [create_order] leaves every product the order names
    with exactly its stock before the call minus the quantities of all the
    lines that name it. *)
Theorem create_order_stock_exact order_data d d' order k :
  run (create_order order_data) d = (d', inr order) →
  k ∈ referenced (OrderCreate.items order_data) →
  ∃ before,
    stock d k = Some before
    ∧ stock d' k = Some (before - requested k (OrderCreate.items order_data)).
Proof.
  intros (-> & _ & _ & Hmiss & _)%run_create_order_returns Hk.
  pose proof (missing_None _ _ k Hmiss) as [p Hp].
  { by apply elem_of_keys_aggregate. }
  rewrite locked_lookup, decide_True in Hp by (by apply elem_of_keys_aggregate).
  exists (Product.stock_quantity p). split.
  - unfold stock. by rewrite Hp.
  - rewrite stock_written by apply elem_of_keys_aggregate.
    unfold stock. by rewrite Hp.
Qed.

(** An order of 10 of Product A, of which there are 100. *)
Lemma create_order_stock_exact_witness :
  run (create_order (OrderCreate.mk [line 1 10])) two_products
  = (one_order, inr (Order.mk 1 0 "pending" [OrderItem.mk (Some 1) 1 1 10 2500]))
  ∧ 1 ∈ referenced [line 1 10]
  ∧ ∃ before, stock two_products 1 = Some before
              ∧ stock one_order 1 = Some (before - requested 1 [line 1 10]).
Proof.
  assert (run (create_order (OrderCreate.mk [line 1 10])) two_products
          = (one_order, inr (Order.mk 1 0 "pending" [OrderItem.mk (Some 1) 1 1 10 2500])))
    as Hrun by (by vm_compute).
  assert (1 ∈ referenced [line 1 10]) as Hin by left.
  split; [exact Hrun|]. split; [exact Hin|].
  exact (create_order_stock_exact _ _ _ _ 1 Hrun Hin).
Defined.

(** C2. A [create_order] that raises has written nothing: the database after
    the request is the database before it, with every stock as it was and no
    order and no order item added; the session holds nothing to flush.  It
    raises for a product that is not there or for one with too little
    stock. *)
Theorem create_order_failure_atomic order_data d d' e :
  run (create_order order_data) d = (d', inl e) →
  d' = d
  ∧ (let s := (create_order order_data (Session.begin d)).1 in
     Session.db s = d ∧ Session.new s = []
     ∧ ∀ k p, Session.identity_map s !! k = Some p → Database.get_product d k = Some p)
  ∧ ((∃ k, e = ProductNotFoundError k
           ∧ k ∈ referenced (OrderCreate.items order_data)
           ∧ Database.get_product d k = None)
     ∨ (∃ k available,
           e = InsufficientStockError k available
                 (requested k (OrderCreate.items order_data))
           ∧ k ∈ referenced (OrderCreate.items order_data)
           ∧ stock d k = Some available
           ∧ available < requested k (OrderCreate.items order_data))).
Proof.
  intros [-> E]%run_create_order_raises. rewrite E. cbn [fst].
  split; [done|]. split.
  { split_and!; [done..|]. intros k p. rewrite locked_lookup. by case_decide. }
  apply create_order_raises in E as [_ [(k & Hmiss & ->)|([k v] & Hmiss & Hshort & ->)]].
  - left. exists k.
    apply missing_Some in Hmiss as [Hk Hnone].
    rewrite locked_lookup, decide_True in Hnone by done.
    split_and!; [done| |done]. by apply elem_of_keys_aggregate.
  - right.
    apply short_Some in Hshort as [Hin Hlt]. cbn [fst snd] in Hlt |- *.
    apply elem_of_aggregate in Hin as [Hk ->].
    pose proof (missing_None _ _ k Hmiss) as [p Hp].
    { by apply elem_of_keys_aggregate. }
    unfold stock_of in *. rewrite Hp in Hlt |- *.
    rewrite locked_lookup, decide_True in Hp by (by apply elem_of_keys_aggregate).
    exists k, (Product.stock_quantity p). split_and!; [done..| |done].
    unfold stock. by rewrite Hp.
Qed.

(** The order of the test: 10 of Product A and 5 of Product B, of which
    there are 3. *)
Lemma create_order_failure_atomic_witness :
  run (create_order (OrderCreate.mk [line 1 10; line 2 5])) two_products
  = (two_products, inl (InsufficientStockError 2 3 5))
  ∧ two_products = two_products
  ∧ Session.new
      (create_order (OrderCreate.mk [line 1 10; line 2 5])
         (Session.begin two_products)).1 = [].
Proof.
  assert (run (create_order (OrderCreate.mk [line 1 10; line 2 5])) two_products
          = (two_products, inl (InsufficientStockError 2 3 5)))
    as Hrun by (by vm_compute).
  split; [exact Hrun|].
  pose proof (create_order_failure_atomic _ _ _ _ Hrun) as (Hsame & (_ & Hnew & _) & _).
  split; [exact Hsame|exact Hnew].
Defined.

(** *** The status machine *)

Lemma flush_nothing (rows : list Product.t) : flush_product ∅ <$> rows = rows.
Proof.
  induction rows as [|row rows IH]; [done|]. csimpl. rewrite IH. f_equal.
Qed.

Lemma violates_nothing (rows : list Product.t) : existsb (violates_check ∅) rows = false.
Proof.
  induction rows as [|row rows IH]; [done|]. simpl. rewrite IH.
  unfold violates_check, flush_product. rewrite lookup_empty.
  by rewrite bool_decide_eq_false_2 by (intros H; by apply H).
Qed.

Lemma commit_clean d d0 locks :
  commit (Session.mk d0 d ∅ [] locks) = (Session.mk d d ∅ [] locks, inr ()).
Proof.
  unfold commit. cbn [Session.db Session.identity_map Session.new Session.row_locks].
  rewrite violates_nothing, flush_nothing. cbn [number_items length].
  rewrite app_nil_r, Z.add_0_r. by destruct d.
Qed.

Lemma get_order_row_with_status d k status o :
  Database.get_order_row d k = Some o →
  Database.get_order_row (with_status d k status) k
  = Some (Order.mk_row k (Order.row_created_at o) status).
Proof.
  unfold Database.get_order_row, with_status. cbn [Database.orders].
  induction (Database.orders d) as [|row rows IH]; [done|]. csimpl.
  case_bool_decide as Hk.
  - intros [= ->]. rewrite decide_True by done. simpl.
    rewrite bool_decide_eq_true_2 by done. by rewrite Hk.
  - intros H. rewrite decide_False by done. rewrite bool_decide_eq_false_2 by done.
    by apply IH.
Qed.

Lemma update_order_status_eq d order_id o new_status :
  Database.get_order_row d order_id = Some o →
  run (update_order_status order_id new_status) d =
  if decide (new_status ∈ VALID_TRANSITIONS_get
               match OrderStatus_of_value (Order.row_status o) with
               | Some st => st
               | None => PENDING
               end)
  then
    let d' := with_status d order_id (value new_status) in
    (d', inr (Order.mk order_id (Order.row_created_at o) (value new_status)
                (Database.items_of d order_id)))
  else (d, inl (InvalidStatusTransitionError (Order.row_status o) (value new_status))).
Proof.
  intros Ho. unfold run, update_order_status.
  rewrite bind_run. unfold gets at 1. cbn [Session.begin Session.db]. rewrite Ho.
  destruct (decide (new_status ∈ _)) as [Hin|Hnin].
  - rewrite decide_False by (by intros ?).
    rewrite bind_run. unfold set_order_status at 1, modify.
    cbn [Session.begin Session.db Session.set_db Session.committed
         Session.identity_map Session.new Session.row_locks].
    change (Session.set_db (Session.begin d) ?x) with (Session.mk d x ∅ [] []).
    rewrite bind_run, commit_clean. unfold refresh. cbn [Session.db].
    rewrite (get_order_row_with_status _ _ _ _ Ho). done.
  - rewrite decide_True by done. done.
Qed.

Lemma VALID_TRANSITIONS_get_eq k :
  VALID_TRANSITIONS_get k
  = match k with PENDING => [SHIPPED; CANCELLED] | _ => [] end.
Proof. by destruct k. Qed.

Lemma OrderStatus_of_value_value st : OrderStatus_of_value (value st) = Some st.
Proof. by destruct st. Qed.

(** C3. For an order whose status is one of the three, [update_order_status]
    succeeds exactly for pending to shipped and pending to cancelled, and
    then the order carries the new status, in the answer and in the
    database; for every other pair it raises
    [InvalidStatusTransitionError] with the current and the requested status
    and changes nothing. *)
Theorem update_order_status_transition_table d order_id o current new_status :
  Database.get_order_row d order_id = Some o →
  Order.row_status o = value current →
  let allowed := (current, new_status) ∈ [(PENDING, SHIPPED); (PENDING, CANCELLED)] in
  ((∃ d' order, run (update_order_status order_id new_status) d = (d', inr order))
   ↔ allowed)
  ∧ (allowed →
     ∃ d' order,
       run (update_order_status order_id new_status) d = (d', inr order)
       ∧ Order.status order = value new_status
       ∧ Order.row_status <$> Database.get_order_row d' order_id
         = Some (value new_status)
       ∧ Database.products d' = Database.products d
       ∧ Database.order_items d' = Database.order_items d)
  ∧ (¬ allowed →
     run (update_order_status order_id new_status) d
     = (d, inl (InvalidStatusTransitionError (value current) (value new_status)))).
Proof.
  intros Ho Hst allowed.
  pose proof (update_order_status_eq d order_id o new_status Ho) as E.
  rewrite Hst, OrderStatus_of_value_value in E. cbv beta iota in E.
  assert (allowed ↔ new_status ∈ VALID_TRANSITIONS_get current) as Hiff.
  { unfold allowed. rewrite VALID_TRANSITIONS_get_eq.
    destruct current, new_status;
      rewrite ?elem_of_cons, ?elem_of_nil; intuition congruence. }
  destruct (decide (new_status ∈ VALID_TRANSITIONS_get current)) as [Hin|Hnin].
  - assert (allowed) as Ha by (by apply Hiff).
    split_and!.
    + split; [done|]. intros _. eexists _, _. exact E.
    + intros _. eexists _, _. split; [exact E|]. split_and!; [done| |done..].
      by rewrite (get_order_row_with_status _ _ _ _ Ho).
    + done.
  - assert (¬ allowed) as Ha by (by rewrite Hiff).
    split_and!.
    + split; [|done]. intros (d' & order & E'). congruence.
    + done.
    + intros _. exact E.
Qed.

(** The pending order, shipped. *)
Lemma update_order_status_transition_table_witness :
  Database.get_order_row one_order 1 = Some (Order.mk_row 1 0 "pending")
  ∧ Order.row_status (Order.mk_row 1 0 "pending") = value PENDING
  ∧ ((∃ d' order, run (update_order_status 1 SHIPPED) one_order = (d', inr order))
     ↔ (PENDING, SHIPPED) ∈ [(PENDING, SHIPPED); (PENDING, CANCELLED)]).
Proof.
  assert (Database.get_order_row one_order 1 = Some (Order.mk_row 1 0 "pending"))
    as Ho by reflexivity.
  assert (Order.row_status (Order.mk_row 1 0 "pending") = value PENDING)
    as Hst by reflexivity.
  split; [exact Ho|]. split; [exact Hst|].
  exact (proj1 (update_order_status_transition_table _ _ _ PENDING SHIPPED Ho Hst)).
Defined.

(** C10. For an order whose stored status is none of the three strings,
    [update_order_status] takes the current status to be pending: a request
    for shipped or cancelled succeeds and the new status is stored, a request
    for pending raises [InvalidStatusTransitionError]. *)
Theorem update_order_status_unknown_status d order_id o :
  Database.get_order_row d order_id = Some o →
  OrderStatus_of_value (Order.row_status o) = None →
  (∀ new_status, new_status = SHIPPED ∨ new_status = CANCELLED →
     ∃ d' order,
       run (update_order_status order_id new_status) d = (d', inr order)
       ∧ Order.status order = value new_status
       ∧ Order.row_status <$> Database.get_order_row d' order_id
         = Some (value new_status))
  ∧ run (update_order_status order_id PENDING) d
    = (d, inl (InvalidStatusTransitionError (Order.row_status o) (value PENDING))).
Proof.
  intros Ho Hst. split.
  - intros new_status Hnew.
    pose proof (update_order_status_eq d order_id o new_status Ho) as E.
    rewrite Hst in E. cbv beta iota in E.
    rewrite decide_True in E
      by (rewrite VALID_TRANSITIONS_get_eq, ?elem_of_cons; tauto).
    eexists _, _. split; [exact E|]. split; [done|].
    by rewrite (get_order_row_with_status _ _ _ _ Ho).
  - pose proof (update_order_status_eq d order_id o PENDING Ho) as E.
    rewrite Hst in E. cbv beta iota in E.
    rewrite decide_False in E
      by (rewrite VALID_TRANSITIONS_get_eq, ?elem_of_cons, ?elem_of_nil;
          intuition congruence).
    exact E.
Qed.

(** An order stored as "returned", asked to become pending. *)
Lemma update_order_status_unknown_status_witness :
  Database.get_order_row one_order_returned 1 = Some (Order.mk_row 1 0 "returned")
  ∧ OrderStatus_of_value (Order.row_status (Order.mk_row 1 0 "returned")) = None
  ∧ run (update_order_status 1 PENDING) one_order_returned
    = (one_order_returned,
       inl (InvalidStatusTransitionError "returned" (value PENDING))).
Proof.
  assert (Database.get_order_row one_order_returned 1
          = Some (Order.mk_row 1 0 "returned")) as Ho by reflexivity.
  assert (OrderStatus_of_value (Order.row_status (Order.mk_row 1 0 "returned")) = None)
    as Hst by reflexivity.
  split; [exact Ho|]. split; [exact Hst|].
  exact (proj2 (update_order_status_unknown_status _ _ _ Ho Hst)).
Defined.

(** *** Duplicate lines *)





Lemma number_items_ids next l i :
  i ∈ OrderItem.id <$> number_items next l → ∃ n, i = Some n ∧ next ≤ n.
Proof.
  revert next. induction l as [|x l IH]; intros next; csimpl.
  - by intros ?%elem_of_nil.
  - intros [->|Hin]%elem_of_cons.
    + exists next. split; [done|lia].
    + apply IH in Hin as (n & -> & Hn). exists n. split; [done|lia].
Qed.

Lemma NoDup_number_items next l : NoDup (OrderItem.id <$> number_items next l).
Proof.
  revert next. induction l as [|x l IH]; intros next; csimpl.
  - constructor.
  - constructor; [|apply IH].
    intros (n & [= <-] & Hn)%number_items_ids. lia.
Qed.

Lemma number_items_lines next order_id (m : gmap Z Product.t) items :
  Forall2 (λ item row,
             OrderItem.order_id row = order_id
             ∧ OrderItem.product_id row = OrderItemCreate.product_id item
             ∧ OrderItem.quantity row = OrderItemCreate.quantity item
             ∧ OrderItem.price_at_order row
               = price_of m (OrderItemCreate.product_id item))
          items (number_items next (lines order_id m items)).
Proof.
  revert next. induction items as [|item items IH]; intros next; csimpl.
  - constructor.
  - constructor; [done|apply IH].
Qed.


(** The example of the specification: a product with quantity 3 twice is
    checked and decremented as quantity 6, and stored as two order items of
    quantity 3.  With 10 in stock both inputs leave 4; with 5 in stock both
    are refused for 6. *)
Example create_order_three_twice :
  let d := Database.mk [Product.mk 1 "P" 3000 10] [] [] 2 1 1 0 in
  let d5 := Database.mk [Product.mk 1 "P" 3000 5] [] [] 2 1 1 0 in
  let twice := OrderCreate.mk [line 1 3; line 1 3] in
  let once := OrderCreate.mk [line 1 6] in
  merged (OrderCreate.items twice) = OrderCreate.items once
  ∧ stock (run (create_order twice) d).1 1 = Some 4
  ∧ stock (run (create_order once) d).1 1 = Some 4
  ∧ OrderItem.quantity <$> Database.order_items (run (create_order twice) d).1 = [3; 3]
  ∧ OrderItem.quantity <$> Database.order_items (run (create_order once) d).1 = [6]
  ∧ run (create_order twice) d5 = (d5, inl (InsufficientStockError 1 5 6))
  ∧ run (create_order once) d5 = (d5, inl (InsufficientStockError 1 5 6)).
Proof. by vm_compute. Qed.

(** *** What the schema refuses and the service does not *)

(** C6, the claim as stated fails: [create_order] itself takes a line with a
    quantity of zero or less.  Called with minus 2 of Product A it stores an
    order and an order item and raises the stock from 100 to 102. *)
Lemma create_order_accepts_nonpositive_quantity :
  (∃ order, (run (create_order (OrderCreate.mk [line 1 (-2)])) two_products).2 = inr order
            ∧ OrderItem.quantity <$> Order.items order = [-2])
  ∧ length (Database.orders
              (run (create_order (OrderCreate.mk [line 1 (-2)])) two_products).1) = 1%nat
  ∧ length (Database.order_items
              (run (create_order (OrderCreate.mk [line 1 (-2)])) two_products).1) = 1%nat
  ∧ stock two_products 1 = Some 100
  ∧ stock (run (create_order (OrderCreate.mk [line 1 (-2)])) two_products).1 1 = Some 102.
Proof. vm_compute. split; [eexists; split; reflexivity|done]. Qed.

(** C6, amended.  A request with a line whose quantity is zero or less is
    refused by the schema of the request body before [create_order] runs: no
    order, no order item, no change of any stock. *)
Theorem post_orders_rejects_nonpositive_quantity body d item :
  item ∈ OrderCreate.items body →
  OrderItemCreate.quantity item ≤ 0 →
  post_orders body d = (d, inl RequestValidationError).
Proof.
  intros Hin Hq. unfold post_orders.
  assert (OrderCreate_valid body = false) as ->; [|done].
  unfold OrderCreate_valid. apply andb_false_iff. right.
  apply not_true_is_false. intros Hall.
  rewrite forallb_forall in Hall. apply list_elem_of_In in Hin.
  specialize (Hall _ Hin). unfold OrderItemCreate_valid in Hall.
  apply andb_prop in Hall as [_ Hq']. apply bool_decide_eq_true in Hq'. lia.
Qed.

(** A request for 1 of Product B and 0 of Product A. *)
Lemma post_orders_rejects_nonpositive_quantity_witness :
  line 1 0 ∈ OrderCreate.items (OrderCreate.mk [line 2 1; line 1 0])
  ∧ OrderItemCreate.quantity (line 1 0) ≤ 0
  ∧ post_orders (OrderCreate.mk [line 2 1; line 1 0]) two_products
    = (two_products, inl RequestValidationError).
Proof.
  assert (line 1 0 ∈ OrderCreate.items (OrderCreate.mk [line 2 1; line 1 0])) as Hin.
  { right. left. }
  assert (OrderItemCreate.quantity (line 1 0) ≤ 0) as Hq by (simpl; lia).
  split; [exact Hin|]. split; [exact Hq|].
  exact (post_orders_rejects_nonpositive_quantity _ two_products _ Hin Hq).
Defined.

(** C7, the claim as stated fails: [create_order] itself, called with no
    lines, raises nothing; it stores an order that has no items. *)
Lemma create_order_accepts_empty :
  (run (create_order (OrderCreate.mk [])) two_products).2
  = inr (Order.mk 1 0 "pending" [])
  ∧ Database.orders (run (create_order (OrderCreate.mk [])) two_products).1
    = [Order.mk_row 1 0 "pending"]
  ∧ (run (create_order (OrderCreate.mk [])) two_products).2 ≠ inl EmptyOrderError.
Proof. vm_compute. done. Qed.

(** C7, amended.  A request with no lines is refused by the schema of the
    request body before [create_order] runs, and nothing is written; no
    request raises [EmptyOrderError]; and every order a request stores has
    at least one order item. *)
Theorem post_orders_rejects_empty d :
  post_orders (OrderCreate.mk []) d = (d, inl RequestValidationError)
  ∧ (∀ body d' e, post_orders body d = (d', inl e) → d' = d ∧ e ≠ EmptyOrderError)
  ∧ (∀ body d' order, post_orders body d = (d', inr order) →
       ∃ row rows,
         Database.order_items d' = Database.order_items d ++ row :: rows
         ∧ Forall (λ i, OrderItem.order_id i = Order.id order) (row :: rows)).
Proof.
  split_and!; [done| |].
  - intros body d' e. unfold post_orders. destruct (OrderCreate_valid body).
    + intros [-> E]%run_create_order_raises. split; [done|].
      by apply create_order_raises in E as [_ [(k & _ & ->)|(kv & _ & _ & ->)]].
    + by intros [= <- <-].
  - intros body d' order. unfold post_orders.
    destruct (OrderCreate_valid body) eqn:Hvalid; [|done].
    intros (-> & Hid & _)%run_create_order_returns.
    unfold OrderCreate_valid in Hvalid. apply andb_prop in Hvalid as [Hlen _].
    apply bool_decide_eq_true in Hlen.
    destruct (OrderCreate.items body) as [|item items] eqn:Hitems; [simpl in Hlen; lia|].
    unfold written. cbn [Database.order_items locked Session.db Session.new app].
    rewrite Hid.
    pose proof (number_items_lines (Database.order_items_id_seq d)
                  (Database.orders_id_seq d)
                  (Session.identity_map
                     (locked (keys (aggregate (item :: items))) d))
                  (item :: items)) as Hrows.
    cbn [locked Session.identity_map] in Hrows.
    destruct (number_items _ _) as [|row rows] eqn:Hn; [by inversion Hrows|].
    exists row, rows. split; [done|].
    eapply Forall2_Forall_r; [exact Hrows|].
    apply Forall_forall. by intros item' _ i (? & _).
Qed.

(** *** The row locks *)

Lemma create_order_row_locks order_data d :
  Session.row_locks (create_order order_data (Session.begin d)).1
  = Product.id <$> selected (keys (aggregate (OrderCreate.items order_data))) d.
Proof.
  destruct (create_order_cases order_data d)
    as [(k & _ & E)|[(kv & _ & _ & E)|(o & _ & _ & _ & E)]]; by rewrite E.
Qed.

Lemma selected_ext ids ids' d :
  (∀ k, k ∈ ids ↔ k ∈ ids') → selected ids d = selected ids' d.
Proof.
  intros Hext. unfold selected.
  induction (Database.products d) as [|row rows IH]; [done|]. simpl.
  rewrite IH. by rewrite (bool_decide_ext _ _ (Hext (Product.id row))).
Qed.

Lemma elem_of_selected ids d k :
  k ∈ Product.id <$> selected ids d ↔ k ∈ ids ∧ is_Some (Database.get_product d k).
Proof.
  unfold selected, Database.get_product.
  induction (Database.products d) as [|row rows IH]; csimpl.
  - rewrite elem_of_nil. split; [by intros []|]. by intros [_ [? ?]].
  - destruct (decide (Product.id row = k)) as [<-|Hne].
    + rewrite (bool_decide_eq_true_2 (Product.id row = Product.id row)) by done.
      case_bool_decide as Hin; csimpl.
      * rewrite elem_of_cons. split; [by eauto|]. intros _. by left.
      * rewrite IH. split; [by intros [? _]|by intros [? _]].
    + rewrite (bool_decide_eq_false_2 (Product.id row = k)) by done.
      case_bool_decide as Hin; csimpl; [|done].
      rewrite elem_of_cons, IH. split; [|by right].
      intros [?|?]; [congruence|done].
Qed.

Lemma NoDup_selected ids d :
  NoDup (Product.id <$> Database.products d) → NoDup (Product.id <$> selected ids d).
Proof.
  unfold selected. induction (Database.products d) as [|row rows IH]; [done|].
  rewrite fmap_cons, NoDup_cons. intros [Hrow Hnd]. csimpl.
  case_bool_decide; csimpl; [|by apply IH].
  rewrite NoDup_cons. split; [|by apply IH].
  intros Hin. apply Hrow.
  apply list_elem_of_fmap in Hin as (p & -> & Hp).
  apply list_elem_of_fmap. exists p. split; [done|].
  apply list_elem_of_In. apply list_elem_of_In in Hp.
  by apply filter_In in Hp as [? _].
Qed.

(** C8, the claim as stated fails: with the row of Product A stored behind
    the row of Product B, an order of both locks Product B, id 2, before
    Product A, id 1: the statement has no [ORDER BY]. *)
Lemma create_order_locks_in_storage_order :
  Session.row_locks
    (create_order (OrderCreate.mk [line 1 10; line 2 1])
       (Session.begin two_products_moved)).1 = [2; 1]
  ∧ ¬ ascending
        (Session.row_locks
           (create_order (OrderCreate.mk [line 1 10; line 2 1])
              (Session.begin two_products_moved)).1).
Proof. split; [by vm_compute|]. vm_compute. intros [? _]. done. Qed.

(** C8, amended.  [create_order] asks with one [SELECT ... FOR UPDATE] for
    the distinct products its lines name, each once; the rows locked are
    those of them that exist, in the order in which the table stores them,
    each once where primary keys are unique; and that order is the same for
    every input that names the same products, in whatever order of lines. *)
Theorem create_order_lock_set order_data d :
  let items := OrderCreate.items order_data in
  let ids := keys (aggregate items) in
  let s := (create_order order_data (Session.begin d)).1 in
  (NoDup ids ∧ ∀ k, k ∈ ids ↔ k ∈ referenced items)
  ∧ Session.row_locks s = Product.id <$> selected ids d
  ∧ (∀ k, k ∈ Session.row_locks s
          ↔ k ∈ referenced items ∧ is_Some (Database.get_product d k))
  ∧ (NoDup (Product.id <$> Database.products d) → NoDup (Session.row_locks s))
  ∧ (∀ order_data',
       (∀ k, k ∈ referenced (OrderCreate.items order_data') ↔ k ∈ referenced items) →
       Session.row_locks (create_order order_data' (Session.begin d)).1
       = Session.row_locks s).
Proof.
  intros items ids s. subst s. rewrite create_order_row_locks. fold items ids.
  split_and!.
  - apply NoDup_keys_aggregate.
  - apply elem_of_keys_aggregate.
  - done.
  - intros k. rewrite elem_of_selected. unfold ids.
    by rewrite elem_of_keys_aggregate.
  - apply NoDup_selected.
  - intros order_data' Hsame. rewrite create_order_row_locks. f_equal.
    apply selected_ext. intros k. unfold ids.
    by rewrite !elem_of_keys_aggregate.
Qed.

(** *** The price snapshot *)

Lemma kept_ext order_id its d d' :
  Order.row_id <$> Database.orders d' = Order.row_id <$> Database.orders d →
  Database.order_items d' = Database.order_items d →
  Database.orders_id_seq d' = Database.orders_id_seq d →
  kept order_id its d → kept order_id its d'.
Proof.
  intros Ho Hi Hs ([Hc1 Hc2] & Hlt & Hits). unfold kept, consistent, Database.items_of.
  rewrite Hi, Hs. split_and!; [|done..].
  apply (Forall_fmap Order.row_id (λ k, k < Database.orders_id_seq d)).
  rewrite Ho. by apply Forall_fmap.
Qed.

Lemma filter_others order_id (l : list OrderItem.t) :
  Forall (λ i, OrderItem.order_id i ≠ order_id) l →
  List.filter (λ i, bool_decide (OrderItem.order_id i = order_id)) l = [].
Proof.
  induction 1 as [|i l Hi _ IH]; [done|]. simpl.
  by rewrite bool_decide_eq_false_2.
Qed.

Lemma filter_own order_id (l : list OrderItem.t) :
  Forall (λ i, OrderItem.order_id i = order_id) l →
  List.filter (λ i, bool_decide (OrderItem.order_id i = order_id)) l = l.
Proof.
  induction 1 as [|i l Hi _ IH]; [done|]. simpl.
  rewrite bool_decide_eq_true_2 by done. by rewrite IH.
Qed.

Lemma number_items_order_id next order_id (m : gmap Z Product.t) items :
  Forall (λ i, OrderItem.order_id i = order_id)
         (number_items next (lines order_id m items)).
Proof.
  eapply Forall2_Forall_r; [apply number_items_lines|].
  apply Forall_forall. by intros item _ i (? & _).
Qed.

Lemma items_of_written ids d items :
  consistent d →
  Database.items_of (written (locked ids d) items) (Database.orders_id_seq d)
  = number_items (Database.order_items_id_seq d)
      (lines (Database.orders_id_seq d) (Session.identity_map (locked ids d)) items).
Proof.
  intros [_ Hc]. unfold Database.items_of, written.
  cbn [Database.order_items locked Session.db Session.new app Session.identity_map].
  rewrite List.filter_app, filter_others.
  - by rewrite filter_own by apply number_items_order_id.
  - eapply Forall_impl; [exact Hc|]. intros; simpl in *; lia.
Qed.

Lemma kept_written order_id its ids d items :
  kept order_id its d → kept order_id its (written (locked ids d) items).
Proof.
  intros ([Hc1 Hc2] & Hlt & Hits). unfold kept, consistent, Database.items_of, written.
  cbn [Database.order_items Database.orders Database.orders_id_seq
       locked Session.db Session.new app Session.identity_map].
  split_and!.
  - apply Forall_app. split.
    + eapply Forall_impl; [exact Hc1|]. intros; simpl in *; lia.
    + constructor; [simpl; lia|constructor].
  - apply Forall_app. split.
    + eapply Forall_impl; [exact Hc2|]. intros; simpl in *; lia.
    + eapply Forall_impl; [apply number_items_order_id|]. intros; simpl in *; lia.
  - lia.
  - rewrite List.filter_app. fold (Database.items_of d order_id). rewrite Hits.
    rewrite (filter_others order_id); [by rewrite app_nil_r|].
    eapply Forall_impl; [apply number_items_order_id|]. intros; simpl in *; lia.
Qed.

Lemma update_order_status_not_found d order_id new_status :
  Database.get_order_row d order_id = None →
  run (update_order_status order_id new_status) d = (d, inl (OrderNotFoundError order_id)).
Proof.
  intros Ho. unfold run, update_order_status.
  rewrite bind_run. unfold gets at 1. cbn [Session.begin Session.db]. by rewrite Ho.
Qed.

Lemma kept_later order_id its d r :
  kept order_id its d → kept order_id its (later d r).
Proof.
  intros Hk. destruct r as [body|body|oid st|pid price]; cbn [later].
  - unfold post_products. destruct (ProductCreate_valid body); [|done].
    unfold run, create_product. cbn [Session.begin Session.db].
    destruct (check_stock_non_negative _); cbn [fst Session.committed]; [|done].
    by eapply kept_ext; [..|exact Hk].
  - unfold post_orders. destruct (OrderCreate_valid body); [|done].
    destruct (run (create_order body) d) as [d' [e|order]] eqn:Hrun; cbn [fst].
    + by apply run_create_order_raises in Hrun as [-> _].
    + apply run_create_order_returns in Hrun as [-> _]. by apply kept_written.
  - unfold patch_order_status.
    destruct (Database.get_order_row d oid) as [o|] eqn:Ho.
    + rewrite (update_order_status_eq _ _ _ _ Ho). case_decide; [|done].
      cbn [fst]. eapply kept_ext; [..|exact Hk]; [|done..].
      unfold with_status. cbn [Database.orders]. rewrite <-list_fmap_compose.
      apply list_fmap_ext. intros _ row _. simpl. by case_decide.
    + by rewrite update_order_status_not_found.
  - by eapply kept_ext; [..|exact Hk].
Qed.

Lemma Forall2_impl_elem_of {A B} (P Q : A → B → Prop) (l : list A) (k : list B) :
  Forall2 P l k → (∀ x y, x ∈ l → P x y → Q x y) → Forall2 Q l k.
Proof.
  induction 1 as [|x y l k Hxy _ IH]; intros Himpl; constructor.
  - apply Himpl; [left|done].
  - apply IH. intros x' y' Hin. apply Himpl. by right.
Qed.

(** C9. Every order item of a created order has the price its product had
    in the database when the call locked and read it, the same for all lines
    of one product; and whatever requests and price changes come later, the
    order's items stay as they are. *)
Theorem price_at_order_snapshot order_data d d' order :
  consistent d →
  run (create_order order_data) d = (d', inr order) →
  Forall2 (λ item i,
             OrderItem.product_id i = OrderItemCreate.product_id item
             ∧ OrderItem.quantity i = OrderItemCreate.quantity item
             ∧ ∃ p, Database.get_product d (OrderItemCreate.product_id item) = Some p
                    ∧ OrderItem.price_at_order i = Product.price p)
          (OrderCreate.items order_data) (Order.items order)
  ∧ ∀ rs, Database.items_of (fold_left later rs d') (Order.id order) = Order.items order.
Proof.
  intros Hc Hrun.
  apply run_create_order_returns in Hrun as (-> & Hid & Hits & Hmiss & _).
  rewrite items_of_written in Hits by done. split.
  - rewrite Hits. eapply Forall2_impl_elem_of; [apply number_items_lines|].
    intros item i Hin (_ & Hp & Hq & Hprice). split_and!; [done..|].
    unfold price_of in Hprice.
    pose proof (missing_None _ _ (OrderItemCreate.product_id item) Hmiss) as [p Hm].
    { apply elem_of_keys_aggregate, list_elem_of_fmap. by exists item. }
    rewrite Hm in Hprice. exists p. split; [|done].
    by rewrite locked_lookup, decide_True in Hm
      by (apply elem_of_keys_aggregate, list_elem_of_fmap; by exists item).
  - intros rs. rewrite Hid, Hits.
    assert (kept (Database.orders_id_seq d)
              (number_items (Database.order_items_id_seq d)
                 (lines (Database.orders_id_seq d)
                    (Session.identity_map
                       (locked (keys (aggregate (OrderCreate.items order_data))) d))
                    (OrderCreate.items order_data)))
              (written (locked (keys (aggregate (OrderCreate.items order_data))) d)
                 (OrderCreate.items order_data))) as Hk.
    { split_and!.
      - destruct Hc as [Hc1 Hc2]. unfold consistent, written.
        cbn [Database.order_items Database.orders Database.orders_id_seq
             locked Session.db Session.new app Session.identity_map].
        split; apply Forall_app; split.
        + eapply Forall_impl; [exact Hc1|]. intros; simpl in *; lia.
        + constructor; [simpl; lia|constructor].
        + eapply Forall_impl; [exact Hc2|]. intros; simpl in *; lia.
        + eapply Forall_impl; [apply number_items_order_id|]. intros; simpl in *; lia.
      - unfold written. cbn [Database.orders_id_seq locked Session.db]. lia.
      - by apply items_of_written. }
    revert Hk. generalize (written (locked (keys (aggregate (OrderCreate.items order_data))) d)
                 (OrderCreate.items order_data)) as d'.
    induction rs as [|r rs IH]; intros d' Hk.
    + by destruct Hk as (_ & _ & ?).
    + cbn [fold_left]. apply IH. by apply kept_later.
Qed.

(** The order of 10 of Product A keeps its one item at 25.00. *)
Lemma price_at_order_snapshot_witness :
  consistent two_products
  ∧ run (create_order (OrderCreate.mk [line 1 10])) two_products
    = (one_order, inr (Order.mk 1 0 "pending" [OrderItem.mk (Some 1) 1 1 10 2500]))
  ∧ ∀ rs, Database.items_of (fold_left later rs one_order) 1
          = [OrderItem.mk (Some 1) 1 1 10 2500].
Proof.
  assert (consistent two_products) as Hc by (split; constructor).
  assert (run (create_order (OrderCreate.mk [line 1 10])) two_products
          = (one_order, inr (Order.mk 1 0 "pending" [OrderItem.mk (Some 1) 1 1 10 2500])))
    as Hrun by (by vm_compute).
  split; [exact Hc|]. split; [exact Hrun|].
  exact (proj2 (price_at_order_snapshot _ _ _ _ Hc Hrun)).
Defined.

Lemma stock_get_product_inv d p q :
  stock d p = Some q →
  ∃ obj, Database.get_product d p = Some obj ∧ Product.stock_quantity obj = q.
Proof.
  unfold stock. destruct (Database.get_product d p) as [obj|]; [|done].
  intros [= <-]. by exists obj.
Qed.

(** *** What else holds of [create_order] *)



(** No order makes a stock negative: after a successful [create_order]
    every product that had a stock of zero or more still has one. *)
Theorem create_order_keeps_stock_non_negative order_data d d' order k q :
  run (create_order order_data) d = (d', inr order) →
  stock d k = Some q → 0 ≤ q →
  ∃ q', stock d' k = Some q' ∧ 0 ≤ q'.
Proof.
  intros (-> & _ & _ & _ & Hshort)%run_create_order_returns Hq Hq0.
  rewrite stock_written by apply elem_of_keys_aggregate. rewrite Hq.
  eexists. split; [reflexivity|].
  destruct (decide (k ∈ referenced (OrderCreate.items order_data))) as [Hin|Hnin].
  - pose proof (short_None _ _ _ _ Hshort (aggregate_requested _ _ Hin)) as Hle.
    unfold stock_of in Hle. rewrite locked_lookup, decide_True in Hle
      by (by apply elem_of_keys_aggregate).
    destruct (stock_get_product_inv d k q Hq) as (p & Hp & <-).
    rewrite Hp in Hle. lia.
  - rewrite requested_not_referenced by done. lia.
Qed.

(** An order of all 3 of Product B. *)
Lemma create_order_keeps_stock_non_negative_witness :
  run (create_order (OrderCreate.mk [line 2 3])) two_products
  = (Database.mk [product_a; Product.mk 2 "Product B" 1550 0]
       [Order.mk_row 1 0 "pending"] [OrderItem.mk (Some 1) 1 2 3 1550] 3 2 2 0,
     inr (Order.mk 1 0 "pending" [OrderItem.mk (Some 1) 1 2 3 1550]))
  ∧ stock two_products 2 = Some 3
  ∧ 0 ≤ 3
  ∧ ∃ q', stock (Database.mk [product_a; Product.mk 2 "Product B" 1550 0]
                   [Order.mk_row 1 0 "pending"] [OrderItem.mk (Some 1) 1 2 3 1550]
                   3 2 2 0) 2 = Some q' ∧ 0 ≤ q'.
Proof.
  assert (run (create_order (OrderCreate.mk [line 2 3])) two_products
          = (Database.mk [product_a; Product.mk 2 "Product B" 1550 0]
               [Order.mk_row 1 0 "pending"] [OrderItem.mk (Some 1) 1 2 3 1550] 3 2 2 0,
             inr (Order.mk 1 0 "pending" [OrderItem.mk (Some 1) 1 2 3 1550])))
    as Hrun by (by vm_compute).
  assert (stock two_products 2 = Some 3) as Hq by reflexivity.
  assert (0 ≤ 3) as Hq0 by lia.
  split; [exact Hrun|]. split; [exact Hq|]. split; [exact Hq0|].
  exact (create_order_keeps_stock_non_negative _ _ _ _ 2 3 Hrun Hq Hq0).
Defined.

(** *** Requests in flight: [N] orders of one unit of one product *)





Lemma products_ids_written s items :
  Product.id <$> Database.products (written s items)
  = Product.id <$> Database.products (Session.db s).
Proof.
  unfold written. cbn [Database.products]. rewrite <-list_fmap_compose.
  apply list_fmap_ext. intros _ row _. simpl. apply flush_product_id.
Qed.










(** [N] requests, each for one unit of product [p], which has [S] in stock
    in the database [d0] they start from. *)
Section one_product.
Context (N : nat) (p S : Z) (d0 : Database.t).
Hypothesis in_stock : stock d0 p = Some S.
Hypothesis non_negative : 0 ≤ S.










End one_product.



(** *** One request alone *)

Lemma lock_and_load_lookup d (l : list Z) (m : gmap Z Product.t) k :
  fold_left (λ m k, lock_and_load d k m) l m !! k =
  match m !! k with
  | Some x => Some x
  | None => if decide (k ∈ l) then Database.get_product d k else None
  end.
Proof.
  revert m. induction l as [|k' l IH]; intros m.
  - simpl. by destruct (m !! k).
  - cbn [fold_left]. rewrite IH. unfold lock_and_load.
    destruct (Database.get_product d k') as [p'|] eqn:Hp'.
    + pose proof (get_product_id _ _ _ Hp') as Hid. unfold load_row. rewrite Hid.
      destruct (m !! k') as [x'|] eqn:Hk'.
      * destruct (m !! k) eqn:Hk; [done|].
        apply decide_ext. rewrite elem_of_cons. split; [by right|].
        intros [->|?]; [congruence|done].
      * destruct (decide (k = k')) as [->|Hne].
        -- rewrite lookup_insert_eq, Hk'. rewrite decide_True by left. done.
        -- rewrite lookup_insert_ne by done. destruct (m !! k); [done|].
           apply decide_ext. rewrite elem_of_cons. split; [by right|].
           intros [->|?]; done.
    + destruct (m !! k) eqn:Hk; [done|].
      destruct (decide (k = k')) as [->|Hne].
      * rewrite Hp'. by repeat case_decide.
      * apply decide_ext. rewrite elem_of_cons. split; [by right|].
        intros [->|?]; done.
Qed.

Lemma lock_and_load_selected ids d :
  fold_left (λ m k, lock_and_load d k m) (Product.id <$> selected ids d) ∅
  = load (selected ids d) ∅.
Proof.
  apply map_eq. intros k.
  rewrite lock_and_load_lookup, load_lookup, !lookup_empty, find_selected.
  destruct (decide (k ∈ ids)) as [Hin|Hnin].
  - case_decide as Hs; [done|].
    destruct (Database.get_product d k) eqn:Hk; [|done].
    exfalso. apply Hs, elem_of_selected. split; [done|by eexists].
  - case_decide as Hs; [|done]. by apply elem_of_selected in Hs as [? _].
Qed.

Lemma run_create_order_finish order_data d :
  run (create_order order_data) d
  = finish order_data
      (load (selected (keys (aggregate (OrderCreate.items order_data))) d) ∅)
      (Product.id <$> selected (keys (aggregate (OrderCreate.items order_data))) d) d.
Proof. reflexivity. Qed.

Lemma alone_step order_data d sys sys' :
  alone order_data d sys → step sys sys' → alone order_data d sys'.
Proof.
  intros [->|[(taken & todo & -> & Hall)| ->]] Hstep; inversion Hstep as
    [sys0 i od Hi|sys0 i od k todo' m locks Hi Hfree|sys0 i od m locks Hi];
    subst; cbn [System.store System.requests] in *;
    (destruct i as [|i]; [|by destruct i]); simplify_eq/=.
  - right. left. by eexists [], _.
  - right. left. eexists (_ ++ [_]), _. split.
    + rewrite fold_left_app. reflexivity.
    + by rewrite <-app_assoc.
  - right. right. rewrite app_nil_r in Hall.
    by rewrite run_create_order_finish, <-Hall, <-lock_and_load_selected, <-Hall.
Qed.

(** One request alone in the system of requests in flight ends as
    [create_order] run in one piece does: with the same database and the
    same answer. *)
Theorem single_request_agrees order_data d sys :
  rtc step (System.mk d [Waiting order_data]) sys →
  forallb finished (System.requests sys) = true →
  sys = System.mk (run (create_order order_data) d).1
          [Finished (run (create_order order_data) d).2].
Proof.
  intros Hrtc Hend.
  assert (alone order_data d sys) as [->|[(taken & todo & -> & _)| ->]]; [|done..].
  remember (System.mk d [Waiting order_data]) as start eqn:Hstart.
  assert (alone order_data d start) as Hstart' by (left; done).
  clear Hstart Hend. induction Hrtc as [|sys sys1 sys2 Hstep _ IH]; [done|].
  apply IH. by eapply alone_step.
Qed.

(** The order of 10 of Product A, alone, taken through its four steps. *)
Lemma single_request_agrees_witness :
  rtc step (System.mk two_products [Waiting (OrderCreate.mk [line 1 10])])
      (System.mk one_order
         [Finished (inr (Order.mk 1 0 "pending" [OrderItem.mk (Some 1) 1 1 10 2500]))])
  ∧ System.mk one_order
      [Finished (inr (Order.mk 1 0 "pending" [OrderItem.mk (Some 1) 1 1 10 2500]))]
    = System.mk (run (create_order (OrderCreate.mk [line 1 10])) two_products).1
        [Finished (run (create_order (OrderCreate.mk [line 1 10])) two_products).2].
Proof.
  assert (rtc step (System.mk two_products [Waiting (OrderCreate.mk [line 1 10])])
            (System.mk one_order
               [Finished (inr (Order.mk 1 0 "pending"
                                 [OrderItem.mk (Some 1) 1 1 10 2500]))])) as Hrtc.
  { eapply rtc_l; [by apply (step_select _ 0%nat)|].
    eapply rtc_l; [eapply (step_lock _ 0%nat); [reflexivity|]|].
    { intros (j & r & Hne & Hj & Hin). destruct j as [|j]; [done|by destruct j]. }
    eapply rtc_l; [by apply (step_finish _ 0%nat)|].
    apply rtc_refl. }
  split; [exact Hrtc|].
  exact (single_request_agrees _ _ _ Hrtc eq_refl).
Defined.

(** * The rest of the API *)

(** ** Which answer [create_order] gives *)

Lemma keys_aggregate_step d item :
  keys (aggregate_step d item) =
  if decide (OrderItemCreate.product_id item ∈ keys d) then keys d
  else keys d ++ [OrderItemCreate.product_id item].
Proof.
  unfold aggregate_step. destruct (decide _).
  - apply keys_dict_iadd.
  - unfold dict_setitem_new, keys. by rewrite fmap_app.
Qed.

Lemma find_app_list {A} (P : A → bool) (l k : list A) :
  find P (l ++ k) = match find P l with Some x => Some x | None => find P k end.
Proof. induction l as [|x l IH]; [done|]. simpl. by destruct (P x). Qed.

Lemma find_None_elem_of {A} (P : A → bool) (l : list A) x :
  find P l = None → x ∈ l → P x = false.
Proof.
  induction l as [|y l IH]; [by rewrite elem_of_nil|].
  simpl. destruct (P y) eqn:Hy; [done|].
  rewrite elem_of_cons. intros Hl [->|Hx]; [done|by apply IH].
Qed.

Lemma find_Some_elem_of {A} (P : A → bool) (l : list A) x :
  find P l = Some x → x ∈ l ∧ P x = true.
Proof.
  induction l as [|y l IH]; [done|].
  simpl. destruct (P y) eqn:Hy.
  - intros [= ->]. split; [left|done].
  - intros [Hx ?]%IH. split; [by right|done].
Qed.

Lemma find_ext_elem_of {A} (P Q : A → bool) (l : list A) :
  (∀ x, x ∈ l → P x = Q x) → find P l = find Q l.
Proof.
  induction l as [|x l IH]; [done|]. intros H. simpl.
  rewrite (H x) by left. rewrite IH; [done|]. intros y Hy. apply H. by right.
Qed.

Lemma find_fmap_list {A B} (f : A → B) (P : B → bool) (l : list A) :
  find P (f <$> l) = f <$> find (P ∘ f) l.
Proof. induction l as [|x l IH]; [done|]. csimpl. by destruct (P (f x)). Qed.

Lemma find_keys_fold (P : Z → bool) items d :
  find P (keys (fold_left aggregate_step items d)) =
  match find P (keys d) with
  | Some k => Some k
  | None => find P (referenced items)
  end.
Proof.
  revert d. induction items as [|item items IH]; intros d.
  { simpl. by destruct (find P (keys d)). }
  simpl fold_left. rewrite IH, keys_aggregate_step.
  change (referenced (item :: items))
    with (OrderItemCreate.product_id item :: referenced items).
  destruct (decide _) as [Hin|Hin].
  - destruct (find P (keys d)) eqn:Hd; [done|].
    simpl. by rewrite (find_None_elem_of _ _ _ Hd Hin).
  - rewrite find_app_list. destruct (find P (keys d)); [done|].
    simpl. by destruct (P _).
Qed.

(** A predicate finds in the keys of [product_quantities] what it finds in
    the lines of the input. *)
Lemma find_keys_aggregate (P : Z → bool) items :
  find P (keys (aggregate items)) = find P (referenced items).
Proof. unfold aggregate. by rewrite find_keys_fold. Qed.

Lemma aggregate_entries items :
  aggregate items = (λ k, (k, requested k items)) <$> keys (aggregate items).
Proof.
  assert (Forall (λ kv, kv.2 = requested kv.1 items) (aggregate items)) as H.
  { apply Forall_forall. intros [k v] Hkv. by apply elem_of_aggregate in Hkv as [_ ->]. }
  induction H as [|[k v] l Hkv _ IH]; [done|].
  csimpl. simpl in Hkv. subst v. f_equal. exact IH.
Qed.

Lemma missing_locked items d :
  missing (Session.identity_map (locked (keys (aggregate items)) d))
          (keys (aggregate items))
  = find (λ k, bool_decide (stock d k = None)) (referenced items).
Proof.
  unfold missing. rewrite <-find_keys_aggregate.
  apply find_ext_elem_of. intros k Hk.
  rewrite locked_lookup, decide_True by done.
  unfold stock. destruct (Database.get_product d k); by apply bool_decide_ext.
Qed.

Lemma stock_of_locked ids d k :
  k ∈ ids → stock_of (Session.identity_map (locked ids d)) k = default 0 (stock d k).
Proof.
  intros Hk. unfold stock_of, stock. rewrite locked_lookup, decide_True by done.
  by destruct (Database.get_product d k).
Qed.

Lemma short_locked items d :
  short (Session.identity_map (locked (keys (aggregate items)) d)) (aggregate items)
  = (λ k, (k, requested k items)) <$>
      find (λ k, bool_decide (default 0 (stock d k) < requested k items))
           (referenced items).
Proof.
  set (m := Session.identity_map _). unfold short.
  rewrite (aggregate_entries items), find_fmap_list, <-find_keys_aggregate.
  f_equal. apply find_ext_elem_of. intros k Hk. simpl.
  unfold m. by rewrite stock_of_locked.
Qed.

(** [create_order], request by request: the first line that names a product
    that does not exist decides, then the first line that names a product
    with too little stock for all the lines that name it. *)
Lemma run_create_order_outcome order_data d :
  let items := OrderCreate.items order_data in
  match find (λ k, bool_decide (stock d k = None)) (referenced items) with
  | Some k => run (create_order order_data) d = (d, inl (ProductNotFoundError k))
  | None =>
      match find (λ k, bool_decide (default 0 (stock d k) < requested k items))
                 (referenced items) with
      | Some k =>
          run (create_order order_data) d
          = (d, inl (InsufficientStockError k (default 0 (stock d k))
                       (requested k items)))
      | None =>
          ∃ order,
            run (create_order order_data) d
            = (written (locked (keys (aggregate items)) d) items, inr order)
      end
  end.
Proof.
  intros items. unfold run. rewrite create_order_eq. fold items.
  rewrite missing_locked, short_locked.
  destruct (find _ (referenced items)) as [k|]; [done|].
  destruct (find _ (referenced items)) as [k|] eqn:Hshort.
  { csimpl. rewrite <-(stock_of_locked (keys (aggregate items))); [done|].
    apply elem_of_keys_aggregate. by apply find_Some_elem_of in Hshort as [Hin _]. }
  csimpl. unfold refresh. cbn [Session.db].
  destruct (refresh_written (locked (keys (aggregate items)) d) items) as [o Ho].
  change (Session.db (locked (keys (aggregate items)) d)) with d in Ho.
  rewrite Ho. by eexists.
Qed.


Lemma create_order_returns_iff order_data d :
  let items := OrderCreate.items order_data in
  (∃ d' order, run (create_order order_data) d = (d', inr order))
  ↔ (∀ k, k ∈ referenced items → ∃ q, stock d k = Some q ∧ requested k items ≤ q).
Proof.
  intros items. pose proof (run_create_order_outcome order_data d) as H.
  cbv zeta in H. fold items in H. revert H.
  destruct (find _ (referenced items)) as [k|] eqn:Hm.
  { intros H. apply find_Some_elem_of in Hm as [Hin Hk].
    apply bool_decide_eq_true in Hk.
    rewrite H. split.
    - intros (? & ? & [=]).
    - intros Hall. destruct (Hall k Hin) as (q & Hq & _). congruence. }
  destruct (find (λ k, bool_decide (default 0 _ < _)) _) as [k|] eqn:Hs.
  { intros H. apply find_Some_elem_of in Hs as [Hin Hk].
    apply bool_decide_eq_true in Hk.
    rewrite H. split.
    - intros (? & ? & [=]).
    - intros Hall. destruct (Hall k Hin) as (q & Hq & Hle).
      rewrite Hq in Hk. simpl in Hk. lia. }
  intros [order H]. split; [|eauto].
  intros _ k Hin.
  pose proof (find_None_elem_of _ _ _ Hm Hin) as Hk.
  pose proof (find_None_elem_of _ _ _ Hs Hin) as Hk'.
  apply bool_decide_eq_false in Hk, Hk'.
  destruct (stock d k) as [q|]; [|done].
  exists q. split; [done|]. simpl in Hk'. lia.
Qed.

(** [OrderService.create_order] returns an order exactly when every
    product that a line names exists and has a stock of at least the sum of
    the quantities of the lines naming it; a stock equal to that sum is
    enough. *)
Theorem create_order_succeeds_iff order_data d :
  let items := OrderCreate.items order_data in
  (∃ d' order, run (create_order order_data) d = (d', inr order))
  ↔ (∀ k, k ∈ referenced items → ∃ q, stock d k = Some q ∧ requested k items ≤ q).
Proof. apply create_order_returns_iff. Qed.

(** ** [get_order], and reading back what was written *)

Lemma run_get_order d order_id :
  run (get_order order_id) d =
  (d, match Database.get_order_row d order_id with
      | Some o => inr (Database.load_order d o)
      | None => inl (OrderNotFoundError order_id)
      end).
Proof.
  unfold run, get_order. cbn [Session.begin Session.db].
  by destruct (Database.get_order_row d order_id).
Qed.

(** An order that [OrderService.create_order] has returned is the order
    that [OrderService.get_order] returns for its id in the database the
    call has left: the same id, creation time, status and items.  Reading
    changes nothing. *)
Theorem get_order_after_create_order order_data d d' order :
  run (create_order order_data) d = (d', inr order) →
  run (get_order (Order.id order)) d' = (d', inr order).
Proof.
  unfold run at 1.
  destruct (create_order_cases order_data d) as
    [(k & _ & ->)|[(kv & _ & _ & ->)|(o & _ & _ & Ho & ->)]]; [done..|].
  cbn [Session.committed]. intros [= <- <-].
  rewrite run_get_order. unfold Database.load_order at 1 2. cbn [Order.id].
  rewrite (get_order_row_id _ _ _ Ho) at 1. by rewrite Ho.
Qed.

Lemma get_order_after_create_order_witness :
  run (create_order (OrderCreate.mk [line 1 10])) two_products
  = (one_order, inr (Order.mk 1 0 "pending" [OrderItem.mk (Some 1) 1 1 10 2500]))
  ∧ run (get_order 1) one_order
    = (one_order, inr (Order.mk 1 0 "pending" [OrderItem.mk (Some 1) 1 1 10 2500])).
Proof.
  assert (run (create_order (OrderCreate.mk [line 1 10])) two_products
          = (one_order,
             inr (Order.mk 1 0 "pending" [OrderItem.mk (Some 1) 1 1 10 2500])))
    as H by (vm_compute; reflexivity).
  split; [exact H|].
  exact (get_order_after_create_order _ _ _ _ H).
Defined.

(** An order that [OrderService.update_order_status] has returned carries
    the requested status, and it is the order that [OrderService.get_order]
    returns for the id afterwards. *)
Theorem get_order_after_update_order_status order_id new_status d d' order :
  run (update_order_status order_id new_status) d = (d', inr order) →
  Order.id order = order_id
  ∧ Order.status order = value new_status
  ∧ run (get_order order_id) d' = (d', inr order).
Proof.
  destruct (Database.get_order_row d order_id) as [o|] eqn:Ho.
  2:{ by rewrite update_order_status_not_found. }
  rewrite (update_order_status_eq _ _ _ _ Ho).
  destruct (decide _); [|done].
  cbv zeta. intros [= <- <-]. split_and!; [done..|].
  rewrite run_get_order, (get_order_row_with_status _ _ _ _ Ho).
  done.
Qed.

Lemma get_order_after_update_order_status_witness :
  run (update_order_status 1 SHIPPED) one_order
  = (with_status one_order 1 "shipped",
     inr (Order.mk 1 0 "shipped" [OrderItem.mk (Some 1) 1 1 10 2500]))
  ∧ Order.id (Order.mk 1 0 "shipped" [OrderItem.mk (Some 1) 1 1 10 2500]) = 1
  ∧ Order.status (Order.mk 1 0 "shipped" [OrderItem.mk (Some 1) 1 1 10 2500])
    = value SHIPPED
  ∧ run (get_order 1) (with_status one_order 1 "shipped")
    = (with_status one_order 1 "shipped",
       inr (Order.mk 1 0 "shipped" [OrderItem.mk (Some 1) 1 1 10 2500])).
Proof.
  assert (run (update_order_status 1 SHIPPED) one_order
          = (with_status one_order 1 "shipped",
             inr (Order.mk 1 0 "shipped" [OrderItem.mk (Some 1) 1 1 10 2500])))
    as H by (vm_compute; reflexivity).
  split; [exact H|].
  exact (get_order_after_update_order_status _ _ _ _ _ H).
Defined.

(** ** What [update_order_status] writes *)

(** The database an [update_order_status] leaves. *)
Lemma run_update_order_status_db d order_id new_status :
  (run (update_order_status order_id new_status) d).1 = d
  ∨ ((run (update_order_status order_id new_status) d).1
       = with_status d order_id (value new_status)
     ∧ ∃ o, Database.get_order_row d order_id = Some o
            ∧ match OrderStatus_of_value (Order.row_status o) with
              | Some st => st
              | None => PENDING
              end = PENDING
            ∧ (new_status = SHIPPED ∨ new_status = CANCELLED)).
Proof.
  destruct (Database.get_order_row d order_id) as [o|] eqn:Ho.
  2:{ left. by rewrite update_order_status_not_found. }
  rewrite (update_order_status_eq _ _ _ _ Ho).
  destruct (decide _) as [Hin|]; [|by left].
  right. split; [done|]. exists o. split; [done|].
  rewrite VALID_TRANSITIONS_get_eq in Hin.
  destruct (match OrderStatus_of_value (Order.row_status o) with
            | Some st => st | None => PENDING end);
    rewrite ?elem_of_cons, ?elem_of_nil in Hin; intuition congruence.
Qed.

(** Whatever its arguments and whatever it answers,
    [OrderService.update_order_status] writes nothing but the status of the
    orders row with the given id: the products with their stocks (a
    cancelled order gives no stock back), the order items, the sequences,
    and the id and creation time of every order stay as they were, and so
    does every other order. *)
Theorem update_order_status_writes_status_only order_id new_status d :
  let d' := (run (update_order_status order_id new_status) d).1 in
  Database.products d' = Database.products d
  ∧ Database.order_items d' = Database.order_items d
  ∧ Database.products_id_seq d' = Database.products_id_seq d
  ∧ Database.orders_id_seq d' = Database.orders_id_seq d
  ∧ Database.order_items_id_seq d' = Database.order_items_id_seq d
  ∧ Forall2 (λ o o', Order.row_id o' = Order.row_id o
                     ∧ Order.row_created_at o' = Order.row_created_at o
                     ∧ (Order.row_id o ≠ order_id → o' = o))
            (Database.orders d) (Database.orders d').
Proof.
  intros d'. unfold d'.
  destruct (run_update_order_status_db d order_id new_status) as [->|[-> _]].
  { split_and!; [done..|]. apply Forall_Forall2_diag, Forall_forall. done. }
  split_and!; [done..|]. cbn [with_status Database.orders].
  apply Forall2_fmap_r, Forall_Forall2_diag, Forall_forall. intros o _.
  unfold compose. destruct (decide (Order.row_id o = order_id)); done.
Qed.

(** ** What a request writes *)

(** The database after [POST /products] with a body the schema accepts. *)
Lemma run_create_product body d :
  ProductCreate_valid body = true →
  let product := Product.mk (Database.products_id_seq d) (ProductCreate.name body)
                   (ProductCreate.price body) (ProductCreate.stock_quantity body) in
  post_products body d
  = (Database.mk (Database.products d ++ [product]) (Database.orders d)
       (Database.order_items d) (Database.products_id_seq d + 1)
       (Database.orders_id_seq d) (Database.order_items_id_seq d) (Database.now d),
     inr product).
Proof.
  intros Hv. unfold post_products. rewrite Hv.
  unfold ProductCreate_valid in Hv.
  apply andb_prop in Hv as [_ Hs]. 
  unfold run, create_product, check_stock_non_negative.
  cbn [Session.begin Session.db Product.stock_quantity]. by rewrite Hs.
Qed.

(** The database a request leaves is the one it found, or one of four. *)
Lemma later_cases d r :
  later d r = d
  ∨ (∃ body, r = PostProducts body ∧ ProductCreate_valid body = true
       ∧ later d r
         = Database.mk
             (Database.products d
                ++ [Product.mk (Database.products_id_seq d) (ProductCreate.name body)
                      (ProductCreate.price body) (ProductCreate.stock_quantity body)])
             (Database.orders d) (Database.order_items d)
             (Database.products_id_seq d + 1) (Database.orders_id_seq d)
             (Database.order_items_id_seq d) (Database.now d))
  ∨ (∃ body, r = PostOrders body ∧ OrderCreate_valid body = true
       ∧ later d r
         = written (locked (keys (aggregate (OrderCreate.items body))) d)
             (OrderCreate.items body)
       ∧ ∀ k, k ∈ referenced (OrderCreate.items body) →
           ∃ q, stock d k = Some q ∧ requested k (OrderCreate.items body) ≤ q)
  ∨ (∃ order_id status o, r = PatchOrderStatus order_id status
       ∧ later d r = with_status d order_id (value status)
       ∧ Database.get_order_row d order_id = Some o
       ∧ match OrderStatus_of_value (Order.row_status o) with
         | Some st => st
         | None => PENDING
         end = PENDING
       ∧ (status = SHIPPED ∨ status = CANCELLED))
  ∨ (∃ product_id price, r = ChangePrice product_id price
       ∧ later d r = change_price product_id price d).
Proof.
  destruct r as [body|body|order_id status|product_id price]; cbn [later].
  - destruct (ProductCreate_valid body) eqn:Hv.
    + right. left. exists body. split_and!; [done..|].
      by rewrite run_create_product.
    + left. unfold post_products. by rewrite Hv.
  - unfold post_orders. destruct (OrderCreate_valid body) eqn:Hv; [|by left].
    pose proof (run_create_order_outcome body d) as H. cbv zeta in H. revert H.
    destruct (find (λ k, bool_decide (stock d k = None)) _) as [k|] eqn:Hm.
    { intros ->. by left. }
    destruct (find (λ k, bool_decide (default 0 _ < _)) _) as [k|] eqn:Hs.
    { intros ->. by left. }
    intros [order ->]. right. right. left. exists body. split_and!; [done..|].
    intros k Hin.
    pose proof (find_None_elem_of _ _ _ Hm Hin) as Hk.
    pose proof (find_None_elem_of _ _ _ Hs Hin) as Hk'.
    apply bool_decide_eq_false in Hk, Hk'.
    destruct (stock d k) as [q|]; [|done].
    exists q. split; [done|]. simpl in Hk'. lia.
  - unfold patch_order_status.
    destruct (run_update_order_status_db d order_id status)
      as [->|(-> & o & Ho & Hc & Hst)]; [by left|].
    right. right. right. left. by exists order_id, status, o.
  - right. right. right. right. by exists product_id, price.
Qed.

(** ** The life of an order *)

Lemma get_order_row_with_status_other d k status order_id :
  order_id ≠ k →
  Database.get_order_row (with_status d k status) order_id
  = Database.get_order_row d order_id.
Proof.
  intros Hne. unfold Database.get_order_row, with_status. cbn [Database.orders].
  induction (Database.orders d) as [|o l IH]; [done|].
  csimpl. destruct (decide (Order.row_id o = k)) as [Hk|Hk].
  - cbn [Order.row_id]. rewrite !bool_decide_eq_false_2 by congruence. exact IH.
  - destruct (bool_decide (Order.row_id o = order_id)); [done|exact IH].
Qed.

(** What a request can do to an order that is stored: nothing, or move it
    from pending, or from a status that is none of the three, to shipped or
    cancelled. *)
Lemma get_order_row_later d r order_id o :
  Database.get_order_row d order_id = Some o →
  Database.get_order_row (later d r) order_id = Some o
  ∨ (match OrderStatus_of_value (Order.row_status o) with
     | Some st => st
     | None => PENDING
     end = PENDING
     ∧ ∃ status, (status = SHIPPED ∨ status = CANCELLED)
         ∧ Database.get_order_row (later d r) order_id
           = Some (Order.mk_row order_id (Order.row_created_at o) (value status))).
Proof.
  intros Ho.
  destruct (later_cases d r) as
    [->|[(body & _ & _ & ->)|[(body & _ & _ & -> & _)
     |[(k & status & o' & _ & -> & Ho' & Hc & Hst)|(k & price & _ & ->)]]]];
    [by left|by left| | |by left].
  - left. unfold Database.get_order_row, written.
    cbn [Database.orders locked Session.db]. rewrite find_app_list.
    unfold Database.get_order_row in Ho. by rewrite Ho.
  - destruct (decide (order_id = k)) as [->|Hne].
    + right. assert (o' = o) as -> by congruence. split; [done|].
      exists status. split; [done|]. by apply get_order_row_with_status.
    + left. by rewrite get_order_row_with_status_other.
Qed.

(** Shipped and cancelled are final.  Once the row of an order has one of
    the two as its status, no sequence of requests (new products, new
    orders, status updates of this or any order, price changes) changes the
    row, and every status update of the order raises
    [InvalidStatusTransitionError] with the stored status and changes
    nothing. *)
Theorem terminal_status_is_final d order_id o rs :
  Database.get_order_row d order_id = Some o →
  Order.row_status o = value SHIPPED ∨ Order.row_status o = value CANCELLED →
  let d' := fold_left later rs d in
  Database.get_order_row d' order_id = Some o
  ∧ ∀ new_status,
      patch_order_status order_id new_status d'
      = (d', inl (InvalidStatusTransitionError (Order.row_status o)
                    (value new_status))).
Proof.
  intros Ho Hst d'.
  assert (Database.get_order_row d' order_id = Some o) as Ho'.
  { unfold d'. clear d'. revert d Ho.
    induction rs as [|r rs IH]; intros d Ho; [done|].
    simpl. apply IH.
    destruct (get_order_row_later d r order_id o Ho) as [H|[Hc _]]; [done|].
    destruct Hst as [Hst|Hst]; rewrite Hst in Hc; done. }
  split; [done|]. intros new_status. unfold patch_order_status.
  rewrite (update_order_status_eq _ _ _ _ Ho'), VALID_TRANSITIONS_get_eq.
  assert (match OrderStatus_of_value (Order.row_status o) with
          | Some st => st
          | None => PENDING
          end ≠ PENDING) as Hc.
  { destruct Hst as [Hst|Hst]; rewrite Hst, OrderStatus_of_value_value; done. }
  destruct (match OrderStatus_of_value (Order.row_status o) with
            | Some st => st
            | None => PENDING
            end); [done| |];
    (destruct (decide _) as [Hin|]; [by apply elem_of_nil in Hin|done]).
Qed.

Lemma terminal_status_is_final_witness :
  Database.get_order_row (with_status one_order 1 "cancelled") 1
  = Some (Order.mk_row 1 0 "cancelled")
  ∧ (Order.row_status (Order.mk_row 1 0 "cancelled") = value SHIPPED
     ∨ Order.row_status (Order.mk_row 1 0 "cancelled") = value CANCELLED)
  ∧ ∀ rs,
      Database.get_order_row
        (fold_left later rs (with_status one_order 1 "cancelled")) 1
      = Some (Order.mk_row 1 0 "cancelled").
Proof.
  assert (Database.get_order_row (with_status one_order 1 "cancelled") 1
          = Some (Order.mk_row 1 0 "cancelled")) as H1 by reflexivity.
  assert (Order.row_status (Order.mk_row 1 0 "cancelled") = value SHIPPED
          ∨ Order.row_status (Order.mk_row 1 0 "cancelled") = value CANCELLED)
    as H2 by (right; reflexivity).
  split; [exact H1|]. split; [exact H2|].
  intros rs. exact (proj1 (terminal_status_is_final _ _ _ rs H1 H2)).
Defined.

(** An order that is stored stays stored under every sequence of
    requests, with its id and creation time, and its status changes at most
    once: the row is as it was, or it was pending (or had a status that is
    none of the three) and is now shipped or cancelled. *)
Theorem order_status_changes_once d order_id o rs :
  Database.get_order_row d order_id = Some o →
  Database.get_order_row (fold_left later rs d) order_id = Some o
  ∨ (current_status (Order.row_status o) = PENDING
     ∧ ∃ status, (status = SHIPPED ∨ status = CANCELLED)
         ∧ Database.get_order_row (fold_left later rs d) order_id
           = Some (Order.mk_row order_id (Order.row_created_at o) (value status))).
Proof.
  revert d o. induction rs as [|r rs IH]; intros d o Ho; [by left|].
  simpl.
  destruct (get_order_row_later d r order_id o Ho) as [H|(Hc & status & Hst & H)].
  { by apply IH. }
  right. split; [done|]. exists status. split; [done|].
  destruct (IH _ _ H) as [H'|[Hc' _]]; [done|].
  unfold current_status in Hc'. cbn [Order.row_status] in Hc'.
  rewrite OrderStatus_of_value_value in Hc'. destruct Hst; congruence.
Qed.

Lemma order_status_changes_once_witness :
  Database.get_order_row one_order 1 = Some (Order.mk_row 1 0 "pending")
  ∧ ∀ rs,
      Database.get_order_row (fold_left later rs one_order) 1
      = Some (Order.mk_row 1 0 "pending")
      ∨ (current_status (Order.row_status (Order.mk_row 1 0 "pending")) = PENDING
         ∧ ∃ status, (status = SHIPPED ∨ status = CANCELLED)
             ∧ Database.get_order_row (fold_left later rs one_order) 1
               = Some (Order.mk_row 1 (Order.row_created_at (Order.mk_row 1 0 "pending"))
                         (value status))).
Proof.
  assert (Database.get_order_row one_order 1 = Some (Order.mk_row 1 0 "pending"))
    as H by reflexivity.
  split; [exact H|].
  intros rs. exact (order_status_changes_once _ _ _ rs H).
Defined.

(** ** Stock and order items *)

Lemma find_fmap_same {A} (P : A → bool) (f : A → A) (l : list A) :
  (∀ x, P (f x) = P x) → find P (f <$> l) = f <$> find P l.
Proof.
  intros H. induction l as [|x l IH]; [done|].
  csimpl. rewrite H. by destruct (P x).
Qed.

Lemma get_product_change_price d product_id price k :
  Database.get_product (change_price product_id price d) k
  = (λ p, if decide (Product.id p = product_id)
          then Product.mk (Product.id p) (Product.name p) price
                 (Product.stock_quantity p)
          else p) <$> Database.get_product d k.
Proof.
  unfold Database.get_product, change_price, Database.set_products.
  cbn [Database.products]. apply find_fmap_same.
  intros p. by destruct (decide _).
Qed.

Lemma stock_change_price d product_id price k :
  stock (change_price product_id price d) k = stock d k.
Proof.
  unfold stock. rewrite get_product_change_price.
  destruct (Database.get_product d k) as [p|]; [|done].
  csimpl. by destruct (decide _).
Qed.

(** The units of product [k] in a list of order items. *)
Lemma sold_app d l k :
  foldr (λ i acc, if decide (OrderItem.product_id i = k)
                  then OrderItem.quantity i + acc else acc) 0
        (Database.order_items d ++ l)
  = sold d k
    + foldr (λ i acc, if decide (OrderItem.product_id i = k)
                      then OrderItem.quantity i + acc else acc) 0 l.
Proof.
  unfold sold. induction (Database.order_items d) as [|i its IH]; [simpl; lia|].
  simpl. rewrite IH. destruct (decide _); lia.
Qed.

Lemma sold_lines next order_id (m : gmap Z Product.t) items k :
  foldr (λ i acc, if decide (OrderItem.product_id i = k)
                  then OrderItem.quantity i + acc else acc) 0
        (number_items next (lines order_id m items))
  = requested k items.
Proof.
  revert next. induction items as [|item items IH]; intros next; [done|].
  rewrite requested_cons. csimpl. rewrite IH. cbn [OrderItem.product_id OrderItem.quantity OrderItem.set_id].
  destruct (decide _); lia.
Qed.

Lemma sold_written ids d items k :
  sold (written (locked ids d) items) k = sold d k + requested k items.
Proof.
  unfold sold at 1, written. cbn [Database.order_items locked Session.db Session.new].
  rewrite app_nil_l. rewrite sold_app. by rewrite sold_lines.
Qed.

(** What a request does to the stock of a product and to the units of it
    that the order items account for. *)
Lemma stock_later d r k q :
  stock d k = Some q →
  ∃ q', stock (later d r) k = Some q' ∧ q' + sold (later d r) k = q + sold d k.
Proof.
  intros Hq.
  destruct (later_cases d r) as
    [->|[(body & _ & _ & ->)|[(body & _ & _ & -> & _)
     |[(oid & status & o' & _ & -> & _)|(pid & price & _ & ->)]]]].
  - by exists q.
  - exists q. split; [|done]. unfold stock, Database.get_product in *.
    cbn [Database.products]. rewrite find_app_list.
    by destruct (find _ (Database.products d)).
  - exists (q - requested k (OrderCreate.items body)).
    rewrite stock_written by apply elem_of_keys_aggregate.
    rewrite Hq, sold_written. split; [done|lia].
  - by exists q.
  - exists q. by rewrite stock_change_price.
Qed.

(** The ledger of a product is kept by every request.  For a product
    that is stored, the stock plus the quantities of all order items that
    name the product is the same number after every sequence of requests:
    each unit leaves the stock together with an order item that accounts
    for it, and nothing puts a unit back, a cancellation included. *)
Theorem stock_ledger_conserved d k q rs :
  stock d k = Some q →
  ∃ q', stock (fold_left later rs d) k = Some q'
        ∧ q' + sold (fold_left later rs d) k = q + sold d k.
Proof.
  revert d q. induction rs as [|r rs IH]; intros d q Hq; [by exists q|].
  simpl. destruct (stock_later d r k q Hq) as (q1 & Hq1 & Hs1).
  destruct (IH _ _ Hq1) as (q' & Hq' & Hs'). exists q'. split; [done|lia].
Qed.

Lemma stock_ledger_conserved_witness :
  stock two_products 1 = Some 100
  ∧ ∃ q', stock (fold_left later
                   [PostOrders (OrderCreate.mk [line 1 10; line 2 1; line 1 5]);
                    PatchOrderStatus 1 CANCELLED]
                   two_products) 1 = Some q'
          ∧ q' + sold (fold_left later
                         [PostOrders (OrderCreate.mk [line 1 10; line 2 1; line 1 5]);
                          PatchOrderStatus 1 CANCELLED]
                         two_products) 1
            = 100 + sold two_products 1.
Proof.
  assert (stock two_products 1 = Some 100) as H by reflexivity.
  split; [exact H|].
  exact (stock_ledger_conserved _ _ _ _ H).
Defined.

(** ** The constraints of the tables *)

Lemma number_items_Forall next order_id (m : gmap Z Product.t) items
    (Q : OrderItem.t → Prop) :
  (∀ item n, item ∈ items →
     next ≤ n < next + Z.of_nat (length items) →
     Q (OrderItem.mk (Some n) order_id (OrderItemCreate.product_id item)
          (OrderItemCreate.quantity item)
          (price_of m (OrderItemCreate.product_id item)))) →
  Forall Q (number_items next (lines order_id m items)).
Proof.
  revert next. induction items as [|item items IH]; intros next H; [constructor|].
  csimpl. constructor.
  - apply H; [left|]. simpl. lia.
  - apply IH. intros item' n Hin Hn. apply H; [by right|]. simpl. lia.
Qed.

Lemma length_number_items next l : length (number_items next l) = length l.
Proof. revert next. induction l as [|i l IH]; intros next; [done|]. simpl. by rewrite IH. Qed.

Lemma length_lines order_id (m : gmap Z Product.t) items :
  length (lines order_id m items) = length items.
Proof. unfold lines. by rewrite length_fmap. Qed.

Lemma get_product_NoDup d p :
  NoDup (Product.id <$> Database.products d) →
  p ∈ Database.products d →
  Database.get_product d (Product.id p) = Some p.
Proof.
  unfold Database.get_product.
  induction (Database.products d) as [|p' l IH]; [by rewrite elem_of_nil|].
  rewrite fmap_cons, NoDup_cons, elem_of_cons. intros [Hp' Hl] [->|Hp].
  - simpl. by rewrite bool_decide_eq_true_2.
  - simpl. rewrite bool_decide_eq_false_2; [by apply IH|].
    intros Heq. apply Hp'. rewrite Heq. by apply list_elem_of_fmap_2.
Qed.

Lemma get_product_elem_of d k p :
  Database.get_product d k = Some p → p ∈ Database.products d.
Proof. unfold Database.get_product. by intros [? _]%find_Some_elem_of. Qed.

Lemma stock_elem_of d k q :
  stock d k = Some q → k ∈ Product.id <$> Database.products d.
Proof.
  intros (p & Hp & _)%stock_get_product_inv.
  rewrite <-(get_product_id _ _ _ Hp).
  apply list_elem_of_fmap_2. by eapply get_product_elem_of.
Qed.

(** The rows of [products] after a successful [create_order]. *)
Lemma products_written d items p :
  NoDup (Product.id <$> Database.products d) →
  p ∈ Database.products d →
  flush_product
    (settle items <$> Session.identity_map (locked (keys (aggregate items)) d)) p
  = if decide (Product.id p ∈ referenced items)
    then Product.set_stock_quantity p
           (Product.stock_quantity p - requested (Product.id p) items)
    else p.
Proof.
  intros Hnd Hp. unfold flush_product.
  rewrite lookup_fmap, locked_lookup.
  destruct (decide (Product.id p ∈ referenced items)) as [Hin|Hin].
  - rewrite decide_True by by apply elem_of_keys_aggregate.
    by rewrite (get_product_NoDup d p).
  - rewrite decide_False; [done|]. by rewrite elem_of_keys_aggregate.
Qed.

Lemma integrity_later d r : integrity d → integrity (later d r).
Proof.
  intros Hd.
  pose proof Hd as (Hp1 & Hp2 & Hp3 & Ho1 & Ho2 & Hi1 & Hi2 & Hi3 & Hi4).
  destruct (later_cases d r) as
    [->|[(body & _ & Hv & ->)|[(body & _ & _ & -> & Hok)
     |[(oid & status & o' & _ & -> & _)|(pid & price & _ & ->)]]]]; [done| | | |].
  - (* a new product *)
    unfold integrity. cbn [Database.products Database.orders Database.order_items
      Database.products_id_seq Database.orders_id_seq Database.order_items_id_seq].
    split_and!; [| | |done..|].
    + rewrite fmap_app. apply NoDup_app. split_and!; [done| |apply NoDup_singleton].
      intros k Hk Hk'. csimpl in Hk'. apply list_elem_of_singleton in Hk'.
      apply list_elem_of_fmap in Hk as (p & Hid & Hp).
      rewrite Forall_forall in Hp2. specialize (Hp2 p Hp). lia.
    + apply Forall_app. split.
      * eapply Forall_impl; [exact Hp2|]. intros p Hp. simpl in Hp. lia.
      * apply Forall_singleton. cbn [Product.id]. lia.
    + apply Forall_app. split; [done|]. apply Forall_singleton.
      unfold ProductCreate_valid in Hv. by apply andb_prop in Hv as [_ Hs].
    + eapply Forall_impl; [exact Hi4|]. intros i Hi. simpl in Hi.
      rewrite fmap_app. apply elem_of_app. by left.
  - (* a new order *)
    set (items := OrderCreate.items body) in *.
    set (ids := keys (aggregate items)) in *.
    assert (Forall (λ i, OrderItem.order_id i = Database.orders_id_seq d
                         ∧ OrderItem.product_id i ∈ Product.id <$> Database.products d
                         ∧ from_option
                             (λ n, Database.order_items_id_seq d ≤ n
                                   < Database.order_items_id_seq d
                                     + Z.of_nat (length items)) False (OrderItem.id i))
              (number_items (Database.order_items_id_seq d)
                 (lines (Database.orders_id_seq d)
                    (Session.identity_map (locked ids d)) items))) as Hnew.
    { apply number_items_Forall. intros item n Hin Hn.
      cbn [OrderItem.order_id OrderItem.product_id OrderItem.id from_option].
      split; [done|]. split; [|done].
      destruct (Hok (OrderItemCreate.product_id item)) as (q & Hq & _).
      { by apply list_elem_of_fmap_2. }
      by eapply stock_elem_of. }
    unfold integrity.
    rewrite products_ids_written.
    unfold written. cbn [Database.products Database.orders Database.order_items
      Database.products_id_seq Database.orders_id_seq Database.order_items_id_seq
      locked Session.db Session.new Session.identity_map].
    rewrite app_nil_l.
    split_and!.
    + done.
    + apply Forall_fmap. eapply Forall_impl; [exact Hp2|]. intros p Hp.
      unfold compose. by rewrite flush_product_id.
    + apply Forall_fmap, Forall_forall. intros p Hp. unfold compose.
      change (load (selected ids d) ∅)
        with (Session.identity_map (locked (keys (aggregate items)) d)).
      rewrite products_written by done.
      rewrite Forall_forall in Hp3. specialize (Hp3 p Hp).
      destruct (decide _) as [Hin|]; [|done].
      destruct (Hok _ Hin) as (q & Hq & Hle).
      unfold stock in Hq. rewrite (get_product_NoDup d p) in Hq by done.
      simplify_eq/=. unfold check_stock_non_negative in *.
      apply bool_decide_eq_true. cbn [Product.stock_quantity Product.set_stock_quantity].
      lia.
    + rewrite fmap_app. apply NoDup_app. split_and!; [done| |apply NoDup_singleton].
      intros k Hk Hk'. csimpl in Hk'. apply list_elem_of_singleton in Hk'.
      apply list_elem_of_fmap in Hk as (o & Hid & Ho).
      rewrite Forall_forall in Ho2. specialize (Ho2 o Ho). lia.
    + apply Forall_app. split.
      * eapply Forall_impl; [exact Ho2|]. intros o Ho. simpl in Ho. lia.
      * apply Forall_singleton. cbn [Order.row_id]. lia.
    + rewrite fmap_app. apply NoDup_app. split_and!; [done| |apply NoDup_number_items].
      intros i Hi Hi'.
      apply number_items_ids in Hi' as (n & -> & Hn).
      apply list_elem_of_fmap in Hi as (it & Hid & Hit).
      rewrite Forall_forall in Hi2. specialize (Hi2 it Hit).
      rewrite <-Hid in Hi2. simpl in Hi2. lia.
    + apply Forall_app. split.
      * eapply Forall_impl; [exact Hi2|]. intros i Hi. simpl in Hi.
        destruct (OrderItem.id i); simpl in *; [lia|done].
      * eapply Forall_impl; [exact Hnew|]. intros i (_ & _ & Hi). simpl in Hi.
        rewrite length_lines.
        destruct (OrderItem.id i); simpl in *; [lia|done].
    + apply Forall_app. split.
      * eapply Forall_impl; [exact Hi3|]. intros i Hi. simpl in Hi.
        rewrite fmap_app. apply elem_of_app. by left.
      * eapply Forall_impl; [exact Hnew|]. intros i (-> & _ & _).
        rewrite fmap_app. apply elem_of_app. right.
        apply list_elem_of_singleton. done.
    + apply Forall_app. split; [done|].
      eapply Forall_impl; [exact Hnew|]. by intros i (_ & Hi & _).
  - (* a new status *)
    unfold integrity, with_status.
    cbn [Database.products Database.orders Database.order_items
      Database.products_id_seq Database.orders_id_seq Database.order_items_id_seq].
    assert (Order.row_id <$>
              ((λ o, if decide (Order.row_id o = oid)
                     then Order.mk_row (Order.row_id o) (Order.row_created_at o)
                            (value status)
                     else o) <$> Database.orders d)
            = Order.row_id <$> Database.orders d) as Hids.
    { rewrite <-list_fmap_compose. apply list_fmap_ext. intros ? o _.
      unfold compose. by destruct (decide _). }
    rewrite Hids. split_and!; [done..| |done|done|done|done].
    apply Forall_fmap. eapply Forall_impl; [exact Ho2|]. intros o Ho.
    unfold compose. by destruct (decide _).
  - (* a new price *)
    unfold integrity, change_price, Database.set_products.
    cbn [Database.products Database.orders Database.order_items
      Database.products_id_seq Database.orders_id_seq Database.order_items_id_seq].
    assert (Product.id <$>
              ((λ p, if decide (Product.id p = pid)
                     then Product.mk (Product.id p) (Product.name p) price
                            (Product.stock_quantity p)
                     else p) <$> Database.products d)
            = Product.id <$> Database.products d) as Hids.
    { rewrite <-list_fmap_compose. apply list_fmap_ext. intros ? p _.
      unfold compose. by destruct (decide _). }
    rewrite Hids. split_and!; [done| | |done..].
    + apply Forall_fmap. eapply Forall_impl; [exact Hp2|]. intros p Hp.
      unfold compose. by destruct (decide _).
    + apply Forall_fmap. eapply Forall_impl; [exact Hp3|]. intros p Hp.
      unfold compose. by destruct (decide _).
Qed.

(** Every request keeps the constraints of the tables.  If the primary
    keys of the three tables are unique and below their sequences, every
    order item refers to a stored order and a stored product, and no stock
    is negative, then the same holds after every sequence of requests. *)
Theorem integrity_preserved d rs :
  integrity d → integrity (fold_left later rs d).
Proof.
  revert d. induction rs as [|r rs IH]; intros d Hd; [done|].
  simpl. by apply IH, integrity_later.
Qed.

Lemma integrity_preserved_witness :
  integrity empty ∧ ∀ rs, integrity (fold_left later rs empty).
Proof.
  assert (integrity empty) as H by (apply (bool_decide_unpack _); vm_compute; exact I).
  split; [exact H|].
  intros rs. exact (integrity_preserved empty rs H).
Defined.

(** ** What the schemas let in *)

Lemma price_of_locked ids d k p :
  k ∈ ids → Database.get_product d k = Some p →
  price_of (Session.identity_map (locked ids d)) k = Product.price p.
Proof.
  intros Hk Hp. unfold price_of. by rewrite locked_lookup, decide_True, Hp.
Qed.

Lemma items_of_app d l order_id :
  List.filter (λ i, bool_decide (OrderItem.order_id i = order_id))
              (Database.order_items d ++ l)
  = Database.items_of d order_id
    ++ List.filter (λ i, bool_decide (OrderItem.order_id i = order_id)) l.
Proof. unfold Database.items_of. apply List.filter_app. Qed.

Lemma validated_later d r : validated d → api r = true → validated (later d r).
Proof.
  intros (Hp & Ho & Hi) Hr.
  destruct (later_cases d r) as
    [->|[(body & _ & Hv & ->)|[(body & _ & Hv & -> & Hok)
     |[(oid & status & o' & _ & -> & _)|(pid & price & -> & _)]]]];
    [done| | | |done].
  - (* a new product *)
    unfold validated. cbn [Database.products Database.orders Database.order_items].
    split_and!; [|done..].
    apply Forall_app. split; [done|]. apply Forall_singleton.
    cbn [Product.name Product.price].
    unfold ProductCreate_valid in Hv.
    apply andb_prop in Hv as [[Hn Hpr]%andb_prop _].
    apply bool_decide_eq_true in Hn, Hpr. done.
  - (* a new order *)
    set (items := OrderCreate.items body) in *.
    set (ids := keys (aggregate items)) in *.
    unfold OrderCreate_valid in Hv. apply andb_prop in Hv as [Hlen Hall].
    apply bool_decide_eq_true in Hlen. fold items in Hlen, Hall.
    assert (Forall (λ i, OrderItem.order_id i = Database.orders_id_seq d
                         ∧ 0 < OrderItem.quantity i
                         ∧ 0 < OrderItem.price_at_order i)
              (number_items (Database.order_items_id_seq d)
                 (lines (Database.orders_id_seq d)
                    (Session.identity_map (locked ids d)) items))) as Hnew.
    { apply number_items_Forall. intros item n Hin _.
      cbn [OrderItem.order_id OrderItem.quantity OrderItem.price_at_order].
      split; [done|].
      rewrite forallb_forall in Hall.
      specialize (Hall item). rewrite <-list_elem_of_In in Hall.
      specialize (Hall Hin). unfold OrderItemCreate_valid in Hall.
      apply andb_prop in Hall as [_ Hq]. apply bool_decide_eq_true in Hq.
      split; [done|].
      destruct (Hok (OrderItemCreate.product_id item)) as (q & Hq' & _).
      { by apply list_elem_of_fmap_2. }
      apply stock_get_product_inv in Hq' as (p & Hget & _).
      rewrite (price_of_locked _ _ _ p); [|by apply elem_of_keys_aggregate, list_elem_of_fmap_2|done].
      rewrite Forall_forall in Hp.
      apply get_product_elem_of in Hget. by destruct (Hp p Hget). }
    unfold validated, Database.items_of, written.
    cbn [Database.products Database.orders Database.order_items
      locked Session.db Session.new Session.identity_map].
    rewrite app_nil_l. split_and!.
    + apply Forall_fmap. eapply Forall_impl; [exact Hp|]. intros p Hpp.
      unfold compose, flush_product. by destruct (_ !! _).
    + apply Forall_app. split.
      * eapply Forall_impl; [exact Ho|]. intros o [Hs Hne]. split; [done|].
        rewrite items_of_app. intros [? _]%app_eq_nil. done.
      * apply Forall_singleton. cbn [Order.row_id Order.row_status]. split; [done|].
        rewrite items_of_app. intros [_ Hnil]%app_eq_nil.
        rewrite filter_own in Hnil.
        2:{ eapply Forall_impl; [exact Hnew|]. by intros i (? & _). }
        apply (f_equal length) in Hnil.
        rewrite length_number_items, length_lines in Hnil. simpl in Hnil. lia.
    + apply Forall_app. split; [done|].
      eapply Forall_impl; [exact Hnew|]. by intros i (_ & ? & ?).
  - (* a new status *)
    unfold validated, with_status, Database.items_of.
    cbn [Database.products Database.orders Database.order_items].
    split_and!; [done| |done].
    apply Forall_fmap. eapply Forall_impl; [exact Ho|]. intros o [Hs Hne].
    unfold compose. destruct (decide _); [|done].
    cbn [Order.row_id Order.row_status]. split; [|done].
    by rewrite OrderStatus_of_value_value.
Qed.

(** The requests of the API keep what the schemas let in.  If every
    product has a name of 1 to 255 characters and a price above 0, every
    order a status of the enum and at least one item, and every order item
    a quantity and a price above 0, then the same holds after every
    sequence of [POST /products], [POST /orders] and
    [PATCH /orders/{id}/status]. *)
Theorem validated_preserved d rs :
  validated d → Forall (λ r, api r = true) rs → validated (fold_left later rs d).
Proof.
  revert d. induction rs as [|r rs IH]; intros d Hd Hrs; [done|].
  apply Forall_cons in Hrs as [Hr Hrs].
  simpl. by apply IH; [apply validated_later|].
Qed.

Lemma validated_preserved_witness :
  validated one_order
  ∧ Forall (λ r, api r = true)
      [PostOrders (OrderCreate.mk [line 1 2; line 2 3]); PatchOrderStatus 2 CANCELLED;
       PostProducts (ProductCreate.mk "Product C" 999 0)]
  ∧ validated
      (fold_left later
         [PostOrders (OrderCreate.mk [line 1 2; line 2 3]); PatchOrderStatus 2 CANCELLED;
          PostProducts (ProductCreate.mk "Product C" 999 0)]
         one_order).
Proof.
  assert (validated one_order) as H1
    by (apply (bool_decide_unpack _); vm_compute; exact I).
  assert (Forall (λ r, api r = true)
            [PostOrders (OrderCreate.mk [line 1 2; line 2 3]);
             PatchOrderStatus 2 CANCELLED;
             PostProducts (ProductCreate.mk "Product C" 999 0)]) as H2
    by (repeat constructor).
  split; [exact H1|]. split; [exact H2|].
  exact (validated_preserved _ _ H1 H2).
Defined.

(** In a database that keeps the constraints of the tables and what the
    schemas let in, every order that [OrderService.get_order] returns fits
    the response schema: [OrderResponse.model_validate] builds a response,
    with the order's id and creation time, a status of the enum, and one
    item, with an id, for each of the order's items, of which there is at
    least one. *)
Theorem get_order_response_valid d order_id d' order :
  integrity d → validated d →
  run (get_order order_id) d = (d', inr order) →
  ∃ response,
    OrderResponse.model_validate order = Some response
    ∧ OrderResponse.id response = order_id
    ∧ value (OrderResponse.status response) = Order.status order
    ∧ OrderResponse.items response ≠ []
    ∧ Forall2 (λ i ri, OrderItem.id i = Some (OrderItemResponse.id ri)
                       ∧ OrderItemResponse.product_id ri = OrderItem.product_id i
                       ∧ OrderItemResponse.quantity ri = OrderItem.quantity i
                       ∧ OrderItemResponse.price_at_order ri
                         = OrderItem.price_at_order i)
              (Order.items order) (OrderResponse.items response).
Proof.
  intros Hint (_ & Ho & _) Hrun.
  destruct Hint as (_ & _ & _ & _ & _ & _ & Hi2 & _).
  rewrite run_get_order in Hrun.
  destruct (Database.get_order_row d order_id) as [o|] eqn:Hrow; [|done].
  injection Hrun as <- <-.
  pose proof (get_order_row_id _ _ _ Hrow) as Hid.
  apply find_Some_elem_of in Hrow as [Hin _].
  rewrite Forall_forall in Ho. destruct (Ho o Hin) as [[st Hst] Hne].
  assert (is_Some (mapM OrderItemResponse.model_validate
                     (Database.items_of d (Order.row_id o)))) as [ris Hris].
  { apply mapM_is_Some, Forall_forall. intros i Hi.
    unfold Database.items_of in Hi. apply list_elem_of_In, filter_In in Hi as [Hi _].
    apply list_elem_of_In in Hi.
    rewrite Forall_forall in Hi2. specialize (Hi2 i Hi).
    unfold compose, OrderItemResponse.model_validate.
    destruct (OrderItem.id i); [by eexists|done]. }
  exists (OrderResponse.mk (Order.row_id o) (Order.row_created_at o) st ris).
  unfold OrderResponse.model_validate, Database.load_order.
  cbn [Order.status Order.items Order.id Order.created_at].
  rewrite Hst. cbn [mbind option_bind]. rewrite Hris. cbn [mbind option_bind].
  cbn [OrderResponse.id OrderResponse.status OrderResponse.items].
  split_and!; [done|done| | |].
  - unfold OrderStatus_of_value in Hst.
    repeat case_decide; simplify_eq; done.
  - intros ->. apply length_mapM in Hris. by destruct (Database.items_of d _).
  - apply mapM_Some_1 in Hris. eapply Forall2_impl; [exact Hris|].
    intros i ri Hri. unfold OrderItemResponse.model_validate in Hri.
    destruct (OrderItem.id i); simplify_eq/=; done.
Qed.

Lemma get_order_response_valid_witness :
  integrity one_order ∧ validated one_order
  ∧ run (get_order 1) one_order
    = (one_order, inr (Order.mk 1 0 "pending" [OrderItem.mk (Some 1) 1 1 10 2500]))
  ∧ ∃ response,
      OrderResponse.model_validate
        (Order.mk 1 0 "pending" [OrderItem.mk (Some 1) 1 1 10 2500]) = Some response
      ∧ OrderResponse.id response = 1.
Proof.
  assert (integrity one_order) as H1
    by (apply (bool_decide_unpack _); vm_compute; exact I).
  assert (validated one_order) as H2
    by (apply (bool_decide_unpack _); vm_compute; exact I).
  assert (run (get_order 1) one_order
          = (one_order,
             inr (Order.mk 1 0 "pending" [OrderItem.mk (Some 1) 1 1 10 2500])))
    as H3 by reflexivity.
  split; [exact H1|]. split; [exact H2|]. split; [exact H3|].
  destruct (get_order_response_valid _ _ _ _ H1 H2 H3) as (response & Hv & Hid & _).
  exists response. split; [exact Hv|exact Hid].
Defined.

(** ** Products *)

(** A product that [POST /products] has stored is read back by
    [ProductService.get_product_by_id] under its id, with the name, price
    and stock of the request and the next value of the sequence as its id;
    every other id reads as before, and orders and order items are not
    touched.  The ids stored before are below the sequence. *)
Theorem post_products_round_trip body d d' product :
  Forall (λ p, Product.id p < Database.products_id_seq d) (Database.products d) →
  post_products body d = (d', inr product) →
  product = Product.mk (Database.products_id_seq d) (ProductCreate.name body)
              (ProductCreate.price body) (ProductCreate.stock_quantity body)
  ∧ run (get_product_by_id (Product.id product)) d' = (d', inr (Some product))
  ∧ (∀ k, k ≠ Product.id product →
       run (get_product_by_id k) d' = (d', inr (Database.get_product d k)))
  ∧ Database.orders d' = Database.orders d
  ∧ Database.order_items d' = Database.order_items d.
Proof.
  intros Hseq. destruct (ProductCreate_valid body) eqn:Hv.
  2:{ unfold post_products. by rewrite Hv. }
  rewrite run_create_product by done. cbv zeta. intros [= <- <-].
  split; [done|]. unfold run, get_product_by_id, gets, Database.get_product.
  cbn [Session.begin Session.db Session.committed Database.products Product.id
       Database.orders Database.order_items].
  assert (find (λ p, bool_decide (Product.id p = Database.products_id_seq d))
               (Database.products d) = None) as Hnone.
  { induction Hseq as [|p l Hp _ IH]; [done|].
    simpl. rewrite bool_decide_eq_false_2 by lia. exact IH. }
  split; [|split; [|done]].
  - rewrite find_app_list, Hnone. simpl. by rewrite bool_decide_eq_true_2.
  - intros k Hk. rewrite find_app_list.
    destruct (find (λ p, bool_decide (Product.id p = k)) (Database.products d));
      [done|].
    simpl. by rewrite bool_decide_eq_false_2.
Qed.

Lemma post_products_round_trip_witness :
  Forall (λ p, Product.id p < Database.products_id_seq two_products)
         (Database.products two_products)
  ∧ post_products (ProductCreate.mk "Product C" 999 7) two_products
    = (Database.mk [product_a; product_b; Product.mk 3 "Product C" 999 7]
         [] [] 4 1 1 0,
       inr (Product.mk 3 "Product C" 999 7))
  ∧ run (get_product_by_id 3)
        (Database.mk [product_a; product_b; Product.mk 3 "Product C" 999 7]
           [] [] 4 1 1 0)
    = (Database.mk [product_a; product_b; Product.mk 3 "Product C" 999 7]
         [] [] 4 1 1 0,
       inr (Some (Product.mk 3 "Product C" 999 7))).
Proof.
  assert (Forall (λ p, Product.id p < Database.products_id_seq two_products)
                 (Database.products two_products)) as H1
    by (repeat constructor).
  assert (post_products (ProductCreate.mk "Product C" 999 7) two_products
          = (Database.mk [product_a; product_b; Product.mk 3 "Product C" 999 7]
               [] [] 4 1 1 0,
             inr (Product.mk 3 "Product C" 999 7))) as H2 by reflexivity.
  split; [exact H1|]. split; [exact H2|].
  exact (proj1 (proj2 (post_products_round_trip _ _ _ _ H1 H2))).
Defined.


(** ** Pages of products *)

#[local] Instance by_id_total : Total by_id.
Proof. intros p q. unfold by_id. lia. Qed.

#[local] Instance by_id_trans : Transitive by_id.
Proof. intros p q r. unfold by_id. lia. Qed.

Lemma run_get_products skip limit d :
  run (get_products skip limit) d
  = (d, inr (take limit (drop skip (order_by_id (Database.products d))),
             Z.of_nat (length (Database.products d)))).
Proof. done. Qed.

Lemma order_by_id_Permutation rows : order_by_id rows ≡ₚ rows.
Proof. apply merge_sort_Permutation. Qed.

Lemma order_by_id_sorted rows : StronglySorted by_id (order_by_id rows).
Proof. apply StronglySorted_merge_sort; apply _. Qed.

Lemma StronglySorted_take {A} (R : relation A) n (l : list A) :
  StronglySorted R l → StronglySorted R (take n l).
Proof.
  intros H. rewrite <-(take_drop n l) in H.
  by apply StronglySorted_app in H as (_ & ? & _).
Qed.

Lemma StronglySorted_drop {A} (R : relation A) n (l : list A) :
  StronglySorted R l → StronglySorted R (drop n l).
Proof.
  intros H. rewrite <-(take_drop n l) in H.
  by apply StronglySorted_app in H as (_ & _ & ?).
Qed.

(** A page of [ProductService.get_products].  The call changes nothing
    and raises nothing; the total is the number of products stored; the
    page holds [limit] products, or those that are left after [skip] if
    they are fewer; every product of the page is stored; and the page is
    in ascending order of the ids. *)
Theorem get_products_page skip limit d :
  ∃ products,
    run (get_products skip limit) d
    = (d, inr (products, Z.of_nat (length (Database.products d))))
    ∧ length products = (limit `min` (length (Database.products d) - skip))%nat
    ∧ (∀ p, p ∈ products → p ∈ Database.products d)
    ∧ StronglySorted by_id products.
Proof.
  eexists. split; [apply run_get_products|].
  split_and!.
  - rewrite length_take, length_drop.
    by rewrite (Permutation_length (order_by_id_Permutation _)).
  - intros p Hp. rewrite <-(order_by_id_Permutation (Database.products d)).
    by apply subseteq_take, subseteq_drop in Hp.
  - apply StronglySorted_take, StronglySorted_drop, order_by_id_sorted.
Qed.

Lemma page_eq limit d i :
  page limit d i = take limit (drop (i * limit) (order_by_id (Database.products d))).
Proof. done. Qed.

Lemma pages_take limit d k :
  mjoin (page limit d <$> seq 0 k)
  = take (k * limit) (order_by_id (Database.products d)).
Proof.
  induction k as [|k IH]; [done|].
  rewrite seq_S, fmap_app, join_app, IH. simpl. rewrite app_nil_r, page_eq.
  set (l := order_by_id (Database.products d)).
  rewrite <-(take_drop (k * limit) (take (limit + k * limit) l)).
  rewrite take_take, Nat.min_l by lia. f_equal.
  by rewrite take_drop_commute, Nat.add_comm.
Qed.

(** The pages of [ProductService.get_products] tile the table.  Read
    with one page size at [skip] 0, [limit], 2 [limit] and so on, as many
    pages as cover the number of products, the pages one after the other
    are the products in ascending order of the ids: every stored product
    is on exactly one page, as often as it is stored. *)
Theorem get_products_pages_tile limit d k :
  (length (Database.products d) ≤ k * limit)%nat →
  mjoin (page limit d <$> seq 0 k) = order_by_id (Database.products d)
  ∧ mjoin (page limit d <$> seq 0 k) ≡ₚ Database.products d.
Proof.
  intros Hk.
  assert (mjoin (page limit d <$> seq 0 k) = order_by_id (Database.products d)) as ->.
  { rewrite pages_take. apply take_ge.
    by rewrite (Permutation_length (order_by_id_Permutation _)). }
  split; [done|apply order_by_id_Permutation].
Qed.

Lemma get_products_pages_tile_witness :
  (length (Database.products two_products_moved) ≤ 2 * 1)%nat
  ∧ mjoin (page 1 two_products_moved <$> seq 0 2) = [product_a; product_b]
  ∧ mjoin (page 1 two_products_moved <$> seq 0 2)
    ≡ₚ Database.products two_products_moved.
Proof.
  assert (length (Database.products two_products_moved) ≤ 2 * 1)%nat as H
    by (simpl; lia).
  split; [exact H|].
  exact (get_products_pages_tile 1 two_products_moved 2 H).
Defined.

(** [GET /products] changes nothing.  It refuses a [skip] below 0 and a
    [limit] below 1 or above [MAX_PAGE_SIZE] (100) as a validation error;
    a query without [skip] reads from 0 and one without [limit] reads
    [DEFAULT_PAGE_SIZE] (10) products.  Every other query is answered with
    the page that [ProductService.get_products] returns, the number of all
    products, and the [skip] and [limit] read: never more than [limit], and
    so never more than 100, products. *)
Theorem list_products_validation skip limit d :
  let s := default 0 skip in
  let l := default DEFAULT_PAGE_SIZE limit in
  (list_products skip limit d).1 = d
  ∧ match (list_products skip limit d).2 with
    | inl e => e = RequestValidationError ∧ (s < 0 ∨ l < 1 ∨ MAX_PAGE_SIZE < l)
    | inr response =>
        0 ≤ s ∧ 1 ≤ l ≤ MAX_PAGE_SIZE
        ∧ run (get_products (Z.to_nat s) (Z.to_nat l)) d
          = (d, inr (ProductListResponse.items response,
                     ProductListResponse.total response))
        ∧ ProductListResponse.skip response = s
        ∧ ProductListResponse.limit response = l
        ∧ Z.of_nat (length (ProductListResponse.items response)) ≤ l
        ∧ (length (ProductListResponse.items response) ≤ 100)%nat
    end.
Proof.
  intros s l. unfold list_products. fold s l.
  destruct (bool_decide (0 ≤ s)) eqn:Hs; cbn [andb].
  2:{ apply bool_decide_eq_false in Hs. split; [done|]. split; [done|]. lia. }
  destruct (bool_decide (1 ≤ l ≤ MAX_PAGE_SIZE)) eqn:Hl.
  2:{ apply bool_decide_eq_false in Hl. split; [done|]. split; [done|]. lia. }
  apply bool_decide_eq_true in Hs, Hl. split; [done|].
  cbn [snd run]. 
  change (run _ d).2 with
    (inr (ProductListResponse.mk
            (take (Z.to_nat l) (drop (Z.to_nat s) (order_by_id (Database.products d))))
            (Z.of_nat (length (Database.products d))) s l)
     : Exception + ProductListResponse.t).
  cbn [ProductListResponse.items ProductListResponse.total ProductListResponse.skip
       ProductListResponse.limit].
  split_and!; [done|lia|lia|apply run_get_products|done|done| |].
  - rewrite length_take. lia.
  - rewrite length_take. unfold MAX_PAGE_SIZE in Hl. lia.
Qed.






(** ** The ids of orders *)

Lemma orders_id_seq_later d r :
  Database.orders_id_seq d ≤ Database.orders_id_seq (later d r).
Proof.
  destruct (later_cases d r) as
    [->|[(body & _ & _ & ->)|[(body & _ & _ & -> & _)
     |[(oid & status & o' & _ & -> & _)|(pid & price & _ & ->)]]]];
    [done|done| |done|done].
  unfold written. cbn [Database.orders_id_seq locked Session.db]. lia.
Qed.

Lemma post_orders_returns body d d' order :
  post_orders body d = (d', inr order) →
  OrderCreate_valid body = true ∧ run (create_order body) d = (d', inr order).
Proof. unfold post_orders. by destruct (OrderCreate_valid body). Qed.

(** Orders get their ids in the order in which they are created: of
    two orders that [POST /orders] has answered with, the later one has
    the greater id, whatever requests came between the two. *)
Theorem order_ids_increase body1 body2 rs d d1 d2 order1 order2 :
  post_orders body1 d = (d1, inr order1) →
  post_orders body2 (fold_left later rs d1) = (d2, inr order2) →
  Order.id order1 < Order.id order2.
Proof.
  intros [_ H1]%post_orders_returns [_ H2]%post_orders_returns.
  apply run_create_order_returns in H1 as (-> & -> & _).
  apply run_create_order_returns in H2 as (_ & -> & _).
  set (d1 := written _ _).
  assert (Database.orders_id_seq d1 = Database.orders_id_seq d + 1) as Hd1 by done.
  assert (∀ d0, Database.orders_id_seq d0
                ≤ Database.orders_id_seq (fold_left later rs d0)) as Hmono.
  { induction rs as [|r rs IH]; intros d0; [done|].
    simpl. etrans; [apply (orders_id_seq_later d0 r)|apply IH]. }
  specialize (Hmono d1). lia.
Qed.

Lemma order_ids_increase_witness :
  post_orders (OrderCreate.mk [line 1 10]) two_products
  = (one_order, inr (Order.mk 1 0 "pending" [OrderItem.mk (Some 1) 1 1 10 2500]))
  ∧ post_orders (OrderCreate.mk [line 2 1])
      (fold_left later [PatchOrderStatus 1 SHIPPED] one_order)
    = (Database.mk [Product.mk 1 "Product A" 2500 90; Product.mk 2 "Product B" 1550 2]
         [Order.mk_row 1 0 "shipped"; Order.mk_row 2 0 "pending"]
         [OrderItem.mk (Some 1) 1 1 10 2500; OrderItem.mk (Some 2) 2 2 1 1550]
         3 3 3 0,
       inr (Order.mk 2 0 "pending" [OrderItem.mk (Some 2) 2 2 1 1550]))
  ∧ Order.id (Order.mk 1 0 "pending" [OrderItem.mk (Some 1) 1 1 10 2500])
    < Order.id (Order.mk 2 0 "pending" [OrderItem.mk (Some 2) 2 2 1 1550]).
Proof.
  assert (post_orders (OrderCreate.mk [line 1 10]) two_products
          = (one_order,
             inr (Order.mk 1 0 "pending" [OrderItem.mk (Some 1) 1 1 10 2500])))
    as H1 by (vm_compute; reflexivity).
  assert (post_orders (OrderCreate.mk [line 2 1])
            (fold_left later [PatchOrderStatus 1 SHIPPED] one_order)
          = (Database.mk
               [Product.mk 1 "Product A" 2500 90; Product.mk 2 "Product B" 1550 2]
               [Order.mk_row 1 0 "shipped"; Order.mk_row 2 0 "pending"]
               [OrderItem.mk (Some 1) 1 1 10 2500; OrderItem.mk (Some 2) 2 2 1 1550]
               3 3 3 0,
             inr (Order.mk 2 0 "pending" [OrderItem.mk (Some 2) 2 2 1 1550])))
    as H2 by (vm_compute; reflexivity).
  split; [exact H1|]. split; [exact H2|].
  exact (order_ids_increase _ _ _ _ _ _ _ _ H1 H2).
Defined.

(** ** What [create_order] answers and writes *)

Lemma get_order_row_written ids d items :
  consistent d →
  Database.get_order_row (written (locked ids d) items) (Database.orders_id_seq d)
  = Some (Order.mk_row (Database.orders_id_seq d) (Database.now d) (value PENDING)).
Proof.
  intros [Ho _]. unfold Database.get_order_row, written.
  cbn [Database.orders locked Session.db]. rewrite find_app_list.
  assert (find (λ o, bool_decide (Order.row_id o = Database.orders_id_seq d))
               (Database.orders d) = None) as ->.
  { induction Ho as [|o l Hlt _ IH]; [done|].
    simpl. rewrite bool_decide_eq_false_2 by lia. exact IH. }
  simpl. by rewrite bool_decide_eq_true_2.
Qed.

(** A successful [create_order] in a database whose orders are older than
    the next order id. *)
Lemma run_create_order_consistent order_data d d' order :
  consistent d →
  run (create_order order_data) d = (d', inr order) →
  let items := OrderCreate.items order_data in
  let s := locked (keys (aggregate items)) d in
  d' = written s items
  ∧ order = Order.mk (Database.orders_id_seq d) (Database.now d) (value PENDING)
              (number_items (Database.order_items_id_seq d)
                 (lines (Database.orders_id_seq d) (Session.identity_map s) items))
  ∧ missing (Session.identity_map s) (keys (aggregate items)) = None.
Proof.
  intros Hc. unfold run.
  destruct (create_order_cases order_data d) as
    [(k & _ & ->)|[(kv & _ & _ & ->)|(o & Hm & _ & Ho & ->)]]; [done..|].
  cbn [Session.committed]. intros [= <- <-]. cbv zeta.
  rewrite get_order_row_written in Ho by done. injection Ho as <-.
  unfold Database.load_order.
  cbn [Order.row_id Order.row_created_at Order.row_status].
  by rewrite items_of_written.
Qed.

(** The answer of a successful [OrderService.create_order], in a
    database whose orders and order items are older than the next order
    id.  The order has that next id, the time of the database and the
    status pending; it fits the response schema; and the response lists one
    item for each line of the input, in the order of the lines, with the
    product and the quantity of the line, the price of the product as
    stored before the call, and an id of its own. *)
Theorem create_order_response order_data d d' order :
  consistent d →
  run (create_order order_data) d = (d', inr order) →
  ∃ items,
    OrderResponse.model_validate order
    = Some (OrderResponse.mk (Database.orders_id_seq d) (Database.now d) PENDING items)
    ∧ Forall2 (λ item ri,
                 OrderItemResponse.product_id ri = OrderItemCreate.product_id item
                 ∧ OrderItemResponse.quantity ri = OrderItemCreate.quantity item
                 ∧ Product.price <$>
                     Database.get_product d (OrderItemCreate.product_id item)
                   = Some (OrderItemResponse.price_at_order ri))
              (OrderCreate.items order_data) items
    ∧ NoDup (OrderItemResponse.id <$> items).
Proof.
  intros Hc Hrun.
  apply run_create_order_consistent in Hrun as (_ & -> & Hm); [|done].
  set (items := OrderCreate.items order_data) in *.
  set (ids := keys (aggregate items)) in *.
  set (rows := number_items _ _).
  assert (Forall2 (λ item row,
                     OrderItem.order_id row = Database.orders_id_seq d
                     ∧ OrderItem.product_id row = OrderItemCreate.product_id item
                     ∧ OrderItem.quantity row = OrderItemCreate.quantity item
                     ∧ OrderItem.price_at_order row
                       = price_of (Session.identity_map (locked ids d))
                           (OrderItemCreate.product_id item)) items rows) as Hrows
    by apply number_items_lines.
  assert (Forall (λ i, is_Some (OrderItem.id i)) rows) as Hsome.
  { apply number_items_Forall. intros item n _ _. by eexists. }
  assert (is_Some (mapM OrderItemResponse.model_validate rows)) as [ris Hris].
  { apply mapM_is_Some. eapply Forall_impl; [exact Hsome|]. intros i [n Hi].
    unfold compose, OrderItemResponse.model_validate. rewrite Hi. by eexists. }
  exists ris. unfold OrderResponse.model_validate.
  cbn [Order.status Order.items Order.id Order.created_at].
  rewrite OrderStatus_of_value_value.
  cbn [mbind option_bind]. rewrite Hris. cbn [mbind option_bind].
  apply mapM_Some_1 in Hris.
  assert (Forall2 (λ item row,
                     OrderItem.product_id row = OrderItemCreate.product_id item
                     ∧ OrderItem.quantity row = OrderItemCreate.quantity item
                     ∧ Product.price <$>
                         Database.get_product d (OrderItemCreate.product_id item)
                       = Some (OrderItem.price_at_order row)) items rows) as Hrows'.
  { eapply Forall2_impl_elem_of; [exact Hrows|].
    intros item row Hin (_ & Hp & Hq & Hpr). split_and!; [done..|].
    assert (OrderItemCreate.product_id item ∈ ids) as Hk
      by by apply elem_of_keys_aggregate, list_elem_of_fmap_2.
    destruct (missing_None _ _ _ Hm Hk) as [p Hp'].
    rewrite locked_lookup, decide_True in Hp' by done.
    rewrite Hpr, Hp'. csimpl. f_equal. symmetry. by apply price_of_locked. }
  split_and!; [done| |].
  - eapply Forall2_trans; [|exact Hrows'|exact Hris].
    intros item row ri (Hp & Hq & Hpr) Hri. simpl in Hri.
    unfold OrderItemResponse.model_validate in Hri.
    destruct (OrderItem.id row); simplify_eq/=. by rewrite Hp, Hq.
  - assert (OrderItem.id <$> rows = Some <$> (OrderItemResponse.id <$> ris)) as Heq.
    { clear -Hris. induction Hris as [|i ri rows ris Hi _ IH]; [done|].
      csimpl. rewrite IH. f_equal.
      unfold OrderItemResponse.model_validate in Hi.
      destruct (OrderItem.id i); by simplify_eq/=. }
    pose proof (NoDup_number_items (Database.order_items_id_seq d)
                  (lines (Database.orders_id_seq d)
                     (Session.identity_map (locked ids d)) items)) as Hnd.
    fold rows in Hnd. rewrite Heq in Hnd.
    by apply NoDup_fmap in Hnd; [|apply _].
Qed.

Lemma create_order_response_witness :
  consistent two_products
  ∧ run (create_order (OrderCreate.mk [line 1 10; line 2 3; line 1 1])) two_products
    = (Database.mk [Product.mk 1 "Product A" 2500 89; Product.mk 2 "Product B" 1550 0]
         [Order.mk_row 1 0 "pending"]
         [OrderItem.mk (Some 1) 1 1 10 2500; OrderItem.mk (Some 2) 1 2 3 1550;
          OrderItem.mk (Some 3) 1 1 1 2500]
         3 2 4 0,
       inr (Order.mk 1 0 "pending"
              [OrderItem.mk (Some 1) 1 1 10 2500; OrderItem.mk (Some 2) 1 2 3 1550;
               OrderItem.mk (Some 3) 1 1 1 2500]))
  ∧ ∃ items,
      OrderResponse.model_validate
        (Order.mk 1 0 "pending"
           [OrderItem.mk (Some 1) 1 1 10 2500; OrderItem.mk (Some 2) 1 2 3 1550;
            OrderItem.mk (Some 3) 1 1 1 2500])
      = Some (OrderResponse.mk 1 0 PENDING items)
      ∧ NoDup (OrderItemResponse.id <$> items).
Proof.
  assert (consistent two_products) as H1 by (split; constructor).
  assert (run (create_order (OrderCreate.mk [line 1 10; line 2 3; line 1 1]))
              two_products
          = (Database.mk
               [Product.mk 1 "Product A" 2500 89; Product.mk 2 "Product B" 1550 0]
               [Order.mk_row 1 0 "pending"]
               [OrderItem.mk (Some 1) 1 1 10 2500; OrderItem.mk (Some 2) 1 2 3 1550;
                OrderItem.mk (Some 3) 1 1 1 2500]
               3 2 4 0,
             inr (Order.mk 1 0 "pending"
                    [OrderItem.mk (Some 1) 1 1 10 2500;
                     OrderItem.mk (Some 2) 1 2 3 1550;
                     OrderItem.mk (Some 3) 1 1 1 2500])))
    as H2 by (vm_compute; reflexivity).
  split; [exact H1|]. split; [exact H2|].
  destruct (create_order_response _ _ _ _ H1 H2) as (items & Hv & _ & Hnd).
  exists items. split; [exact Hv|exact Hnd].
Defined.



(** ** Stock through the API *)

Lemma requested_nonneg k items :
  forallb OrderItemCreate_valid items = true → 0 ≤ requested k items.
Proof.
  induction items as [|item items IH]; [done|].
  simpl forallb. intros [Hv Hall]%andb_prop. rewrite requested_cons.
  unfold OrderItemCreate_valid in Hv. apply andb_prop in Hv as [_ Hq].
  apply bool_decide_eq_true in Hq. specialize (IH Hall).
  destruct (decide _); lia.
Qed.

Lemma stock_later_le d r k q :
  api r = true → stock d k = Some q →
  ∃ q', stock (later d r) k = Some q' ∧ q' ≤ q.
Proof.
  intros Hr Hq.
  destruct (later_cases d r) as
    [->|[(body & _ & _ & ->)|[(body & _ & Hv & -> & _)
     |[(oid & status & o' & _ & -> & _)|(pid & price & -> & _)]]]];
    [by exists q| | |by exists q|done].
  - exists q. split; [|done]. unfold stock, Database.get_product in *.
    cbn [Database.products]. rewrite find_app_list.
    by destruct (find _ (Database.products d)).
  - exists (q - requested k (OrderCreate.items body)).
    rewrite stock_written by apply elem_of_keys_aggregate.
    rewrite Hq. split; [done|].
    unfold OrderCreate_valid in Hv. apply andb_prop in Hv as [_ Hall].
    pose proof (requested_nonneg k _ Hall). lia.
Qed.

(** Through the API the stock of a product only goes down.  After every
    sequence of [POST /products], [POST /orders] and
    [PATCH /orders/{id}/status] a product that was stored is stored, with a
    stock that is at most the stock before: no request of the API restocks,
    and cancelling an order gives nothing back. *)
Theorem stock_never_increases d k q rs :
  Forall (λ r, api r = true) rs →
  stock d k = Some q →
  ∃ q', stock (fold_left later rs d) k = Some q' ∧ q' ≤ q.
Proof.
  revert d q. induction rs as [|r rs IH]; intros d q Hrs Hq; [by exists q|].
  apply Forall_cons in Hrs as [Hr Hrs]. simpl.
  destruct (stock_later_le d r k q Hr Hq) as (q1 & Hq1 & Hle1).
  destruct (IH _ _ Hrs Hq1) as (q' & Hq' & Hle'). exists q'. split; [done|lia].
Qed.

Lemma stock_never_increases_witness :
  Forall (λ r, api r = true)
    [PostOrders (OrderCreate.mk [line 1 10]); PatchOrderStatus 1 CANCELLED]
  ∧ stock two_products 1 = Some 100
  ∧ ∃ q', stock (fold_left later
                   [PostOrders (OrderCreate.mk [line 1 10]);
                    PatchOrderStatus 1 CANCELLED] two_products) 1 = Some q'
          ∧ q' ≤ 100.
Proof.
  assert (Forall (λ r, api r = true)
            [PostOrders (OrderCreate.mk [line 1 10]); PatchOrderStatus 1 CANCELLED])
    as H1 by (repeat constructor).
  assert (stock two_products 1 = Some 100) as H2 by reflexivity.
  split; [exact H1|]. split; [exact H2|].
  exact (stock_never_increases _ _ _ _ H1 H2).
Defined.

Lemma post_orders_iff body d :
  (∃ d' order, post_orders body d = (d', inr order))
  ↔ OrderCreate_valid body = true
    ∧ ∀ k, k ∈ referenced (OrderCreate.items body) →
        ∃ q, stock d k = Some q ∧ requested k (OrderCreate.items body) ≤ q.
Proof.
  rewrite <-create_order_returns_iff. unfold post_orders.
  destruct (OrderCreate_valid body).
  - split; [by intros H|by intros [_ H]].
  - split; [by intros (? & ? & ?)|by intros [? _]].
Qed.

Lemma stock_post_orders body d d' order k :
  post_orders body d = (d', inr order) →
  stock d' k = (λ q, q - requested k (OrderCreate.items body)) <$> stock d k.
Proof.
  intros [_ (-> & _)%run_create_order_returns]%post_orders_returns.
  apply stock_written, elem_of_keys_aggregate.
Qed.

(** Two orders that [POST /orders] accepts one after the other would
    also have been accepted in the other order, and the stock of every
    product is the same either way. *)
Theorem post_orders_commute body1 body2 d d1 d12 order1 order2 :
  post_orders body1 d = (d1, inr order1) →
  post_orders body2 d1 = (d12, inr order2) →
  ∃ d2 d21 order2' order1',
    post_orders body2 d = (d2, inr order2')
    ∧ post_orders body1 d2 = (d21, inr order1')
    ∧ ∀ k, stock d21 k = stock d12 k.
Proof.
  intros H1 H12.
  assert (∃ d' order, post_orders body1 d = (d', inr order)) as [Hv1 Hok1]%post_orders_iff
    by eauto.
  assert (∃ d' order, post_orders body2 d1 = (d', inr order)) as [Hv2 Hok2]%post_orders_iff
    by eauto.
  pose proof Hv1 as [_ Hall1]%andb_prop. pose proof Hv2 as [_ Hall2]%andb_prop.
  assert (∃ d2 order2', post_orders body2 d = (d2, inr order2')) as (d2 & order2' & H2).
  { apply post_orders_iff. split; [done|]. intros k Hk.
    destruct (Hok2 k Hk) as (q1 & Hq1 & Hle).
    rewrite (stock_post_orders _ _ _ _ k H1) in Hq1.
    destruct (stock d k) as [q|]; [|done]. simplify_eq/=.
    exists q. split; [done|]. pose proof (requested_nonneg k _ Hall1). lia. }
  assert (∃ d21 order1', post_orders body1 d2 = (d21, inr order1'))
    as (d21 & order1' & H21).
  { apply post_orders_iff. split; [done|]. intros k Hk.
    destruct (Hok1 k Hk) as (q & Hq & Hle).
    rewrite (stock_post_orders _ _ _ _ k H2), Hq. csimpl.
    eexists. split; [done|].
    destruct (decide (k ∈ referenced (OrderCreate.items body2))) as [Hk2|Hk2].
    - destruct (Hok2 k Hk2) as (q1 & Hq1 & Hle1).
      rewrite (stock_post_orders _ _ _ _ k H1), Hq in Hq1. simplify_eq/=. lia.
    - rewrite (requested_not_referenced _ _ Hk2). lia. }
  exists d2, d21, order2', order1'. split_and!; [done..|].
  intros k.
  rewrite (stock_post_orders _ _ _ _ k H21), (stock_post_orders _ _ _ _ k H2),
    (stock_post_orders _ _ _ _ k H12), (stock_post_orders _ _ _ _ k H1).
  destruct (stock d k) as [q|]; [|done]. csimpl. f_equal. lia.
Qed.

Lemma post_orders_commute_witness :
  post_orders (OrderCreate.mk [line 1 10]) two_products
  = (one_order, inr (Order.mk 1 0 "pending" [OrderItem.mk (Some 1) 1 1 10 2500]))
  ∧ post_orders (OrderCreate.mk [line 2 1; line 1 5]) one_order
    = (Database.mk [Product.mk 1 "Product A" 2500 85; Product.mk 2 "Product B" 1550 2]
         [Order.mk_row 1 0 "pending"; Order.mk_row 2 0 "pending"]
         [OrderItem.mk (Some 1) 1 1 10 2500; OrderItem.mk (Some 2) 2 2 1 1550;
          OrderItem.mk (Some 3) 2 1 5 2500]
         3 3 4 0,
       inr (Order.mk 2 0 "pending"
              [OrderItem.mk (Some 2) 2 2 1 1550; OrderItem.mk (Some 3) 2 1 5 2500]))
  ∧ ∃ d2 d21 order2' order1',
      post_orders (OrderCreate.mk [line 2 1; line 1 5]) two_products = (d2, inr order2')
      ∧ post_orders (OrderCreate.mk [line 1 10]) d2 = (d21, inr order1')
      ∧ ∀ k, stock d21 k
             = stock (Database.mk
                        [Product.mk 1 "Product A" 2500 85;
                         Product.mk 2 "Product B" 1550 2]
                        [Order.mk_row 1 0 "pending"; Order.mk_row 2 0 "pending"]
                        [OrderItem.mk (Some 1) 1 1 10 2500;
                         OrderItem.mk (Some 2) 2 2 1 1550;
                         OrderItem.mk (Some 3) 2 1 5 2500]
                        3 3 4 0) k.
Proof.
  assert (post_orders (OrderCreate.mk [line 1 10]) two_products
          = (one_order,
             inr (Order.mk 1 0 "pending" [OrderItem.mk (Some 1) 1 1 10 2500])))
    as H1 by (vm_compute; reflexivity).
  assert (post_orders (OrderCreate.mk [line 2 1; line 1 5]) one_order
          = (Database.mk
               [Product.mk 1 "Product A" 2500 85; Product.mk 2 "Product B" 1550 2]
               [Order.mk_row 1 0 "pending"; Order.mk_row 2 0 "pending"]
               [OrderItem.mk (Some 1) 1 1 10 2500; OrderItem.mk (Some 2) 2 2 1 1550;
                OrderItem.mk (Some 3) 2 1 5 2500]
               3 3 4 0,
             inr (Order.mk 2 0 "pending"
                    [OrderItem.mk (Some 2) 2 2 1 1550;
                     OrderItem.mk (Some 3) 2 1 5 2500])))
    as H2 by (vm_compute; reflexivity).
  split; [exact H1|]. split; [exact H2|].
  exact (post_orders_commute _ _ _ _ _ _ _ H1 H2).
Defined.

(** ** The status codes of the answers *)


(** ** Requests in flight are served one by one *)

















